(** * nmapTables: the aggregation of Nmap service observations into a table

    A shallow embedding of [main.go]: [GenerateTableData], the two loops it
    runs over the parsed scan files and over the version map, the library
    calls it relies on ([sort.Strings], [sort.Slice], [strings.Join],
    [fmt.Sprintf]), and the control flow of [main], [resolveAbsPath] and
    [FilePathWalkDir].

    Go strings are byte sequences and are compared bytewise; they are
    modelled by [string], whose characters are the 256 values of [ascii] and
    whose order [String.compare] is the lexicographic order on these bytes.
    The Go map [versionMap] is a [gmap string (list string)]; the order in
    which [range] enumerates it is not fixed by the language and is a
    parameter of the model. *)

From Stdlib Require Import String Ascii List Sorted Permutation.
From stdpp Require Import base gmap strings list fin_maps sorting.

(** ** The parsed scan document

    Only the fields [GenerateTableData] reads are kept of the [Nmaprun]
    struct; the nesting of the Go structs is preserved
    ([nmapRun.Host.Ports.Port], [port.State.State], [port.Service.Name]). *)

Record AddressT := { Addr : string }.
Record StateT := { State : string }.
Record ServiceT := { Name : string; Product : string; Version : string }.
Record PortT := { Portid : string; PortState : StateT; Service : ServiceT }.
Record PortsT := { Port : list PortT }.
Record HostT := { Address : list AddressT; Ports : PortsT }.
Record Nmaprun := { Host : HostT }.

(** What [os.ReadFile] followed by [xml.Unmarshal] gives for one path. The
    errors carry their message. *)
Inductive FileResult :=
| ReadError (err : string)
| UnmarshalError (err : string)
| Parsed (nmapRun : Nmaprun).

(** The files on disk, as the two calls see them. *)
Definition FileSystem := string → FileResult.

(** ** Library functions *)

(** The line feed the format strings end with. *)
Definition LF : string := String (ascii_of_nat 10) "".

(** [fmt.Sprintf("%s %s", a, b)]. *)
Definition Sprintf_s_s (a b : string) : string := a +:+ " " +:+ b.

(** [strings.Join(elems, sep)]. *)
Fixpoint Join (elems : list string) (sep : string) : string :=
  match elems with
  | [] => ""
  | [e] => e
  | e :: es => e +:+ sep +:+ Join es sep
  end.

(** Insertion sort as in Go's [sort] package ([insertionSortLessFunc], the
    routine [sort.Strings] and [sort.Slice] run on short slices): the element
    at position [i] is swapped with its left neighbour as long as it is
    [less] than it. The sorted prefix is kept reversed, the nearest
    neighbour first. On longer slices the package switches to other
    strategies with the same contract: the result is a permutation of the
    input in which no element is [less] than an earlier one. On the slices
    [GenerateTableData] sorts that contract leaves one result
    ([sortStrings_contract], [sortSlice_contract]). *)
Fixpoint sink {A} (less : A → A → bool) (x : A) (rprefix : list A) : list A :=
  match rprefix with
  | [] => [x]
  | y :: r => if less x y then y :: sink less x r else x :: y :: r
  end.

Definition insertionSort {A} (less : A → A → bool) (data : list A) : list A :=
  rev (fold_left (fun rprefix x => sink less x rprefix) data []).

(** [sort.Strings(x)]: ascending, by the bytewise [<] on strings. *)
Definition sortStrings (x : list string) : list string :=
  insertionSort String.ltb x.

(** [sort.Slice(x, less)]. *)
Definition sortSlice {A} (less : A → A → bool) (x : list A) : list A :=
  insertionSort less x.

(** ** GenerateTableData *)

(** The enumeration order of [range versionMap]. Go leaves it unspecified
    and randomises it from one loop to the next; any enumeration of the
    entries of the map, each once, is possible. *)
Record RangeOrder := {
  range :> gmap string (list string) → list (string * list string);
  range_perm : ∀ m, range m ≡ₚ map_to_list m
}.

(** The enumeration stdpp's [map_to_list] gives. *)
Definition range_map_to_list : RangeOrder :=
  {| range := map_to_list; range_perm := fun m => Permutation_refl _ |}.

(** The reversed one. *)
Program Definition range_reversed : RangeOrder :=
  {| range := fun m => rev (map_to_list m) |}.
Next Obligation. intros m. symmetry. apply Permutation_rev. Qed.

(** A row is the slice [[]string{hostsJoined, serviceName, version}];
    [data[i][2]] is [idx 2 (data[i])]. *)
Definition idx (i : nat) (row : list string) : string := nth i row "".

(** Body of the loop over [nmapRun.Host.Ports.Port] (lines 34-49). *)
Definition portStep (nmapRun : Nmaprun) (serviceName : string)
    (versionMap : gmap string (list string)) (port : PortT)
    : gmap string (list string) :=
  if String.eqb (State (PortState port)) "filtered" then versionMap
  else if String.eqb (Name (Service port)) serviceName then
    let hostIP :=
      match Address (Host nmapRun) with
      | a :: _ => Addr a
      | [] => ""
      end in
    let portID := Portid port in
    let serviceVersion :=
      Sprintf_s_s (Product (Service port)) (Version (Service port)) in
    let hostPort := hostIP +:+ ":" +:+ portID in
    <[serviceVersion := default [] (versionMap !! serviceVersion) ++ [hostPort]]>
      versionMap
  else versionMap.

(** Body of the loop over [nmapFiles] (lines 20-50). The state is what the
    function has printed so far and the version map. *)
Definition fileStep (fs : FileSystem) (serviceName : string)
    (st : list string * gmap string (list string)) (filePath : string)
    : list string * gmap string (list string) :=
  match fs filePath with
  | ReadError err =>
      (st.1 ++ ["Error reading file " +:+ filePath +:+ ": " +:+ err +:+ LF],
       st.2)
  | UnmarshalError err =>
      (st.1 ++ ["Failed to unmarshal xml data in " +:+ filePath +:+ LF
                    +:+ "Error: " +:+ err +:+ LF], st.2)
  | Parsed nmapRun =>
      (st.1, fold_left (portStep nmapRun serviceName)
               (Port (Ports (Host nmapRun))) st.2)
  end.

(** Body of the loop over [versionMap] (lines 53-57). *)
Definition rowStep (serviceName : string) (data : list (list string))
    (entry : string * list string) : list (list string) :=
  let '(version, hosts) := entry in
  let hosts := sortStrings hosts in
  let hostsJoined := Join hosts "<br>" in
  data ++ [[hostsJoined; serviceName; version]].

(** [less] of the final [sort.Slice]: [data[i][2] < data[j][2]]. *)
Definition lessVersion (a b : list string) : bool :=
  String.ltb (idx 2 a) (idx 2 b).

(** The function, with what it prints. *)
Definition GenerateTableData_io (fs : FileSystem) (order : RangeOrder)
    (nmapFiles : list string) (serviceName : string)
    : list string * list (list string) :=
  let st := fold_left (fileStep fs serviceName) nmapFiles ([], ∅) in
  let data := fold_left (rowStep serviceName) (order st.2) [] in
  (st.1, sortSlice lessVersion data).

(** The value it returns. *)
Definition GenerateTableData (fs : FileSystem) (order : RangeOrder)
    (nmapFiles : list string) (serviceName : string) : list (list string) :=
  (GenerateTableData_io fs order nmapFiles serviceName).2.

(** ** Observations

    The specification's view of the input: one Observation per scanned port,
    carrying the address of its host. [observations] lists them in the order
    the two nested loops of [GenerateTableData] visit them; files that
    cannot be read or parsed contribute none. *)

Record Observation := {
  o_host : string;
  o_port : string;
  o_portState : string;
  o_serviceName : string;
  o_serviceProduct : string;
  o_serviceVersion : string
}.

Definition observationOf (nmapRun : Nmaprun) (port : PortT) : Observation :=
  {| o_host := match Address (Host nmapRun) with
               | a :: _ => Addr a
               | [] => ""
               end;
     o_port := Portid port;
     o_portState := State (PortState port);
     o_serviceName := Name (Service port);
     o_serviceProduct := Product (Service port);
     o_serviceVersion := Version (Service port) |}.

Definition fileObservations (fs : FileSystem) (filePath : string)
    : list Observation :=
  match fs filePath with
  | Parsed nmapRun => observationOf nmapRun <$> Port (Ports (Host nmapRun))
  | _ => []
  end.

Definition observations (fs : FileSystem) (nmapFiles : list string)
    : list Observation :=
  nmapFiles ≫= fileObservations fs.

(** The two tests of lines 35 and 38. *)
Definition notFiltered (o : Observation) : bool :=
  negb (String.eqb (o_portState o) "filtered").

Definition nameMatches (serviceName : string) (o : Observation) : bool :=
  String.eqb (o_serviceName o) serviceName.

Definition kept (serviceName : string) (o : Observation) : bool :=
  notFiltered o && nameMatches serviceName o.

(** The key and the entry of lines 44 and 46. *)
Definition versionKey (o : Observation) : string :=
  o_serviceProduct o +:+ " " +:+ o_serviceVersion o.

Definition hostPort (o : Observation) : string :=
  o_host o +:+ ":" +:+ o_port o.

(** The entries accumulated under [key], in traversal order. *)
Definition bucket (serviceName key : string) (obs : list Observation)
    : list string :=
  hostPort <$>
    filter (fun o => versionKey o = key)
      (filter (fun o => kept serviceName o = true) obs).

(** One step of the accumulation, on an Observation. *)
Definition obsStep (serviceName : string)
    (versionMap : gmap string (list string)) (o : Observation)
    : gmap string (list string) :=
  if kept serviceName o then
    <[versionKey o := default [] (versionMap !! versionKey o) ++ [hostPort o]]>
      versionMap
  else versionMap.

(** What the map holds after the first loop. *)
Definition versionMapOf (serviceName : string) (obs : list Observation)
    : gmap string (list string) :=
  fold_left (obsStep serviceName) obs ∅.

(** The order a sorting routine leaves a slice in: no later element is
    [less] than an earlier one; and its mirror image. *)
Definition ascending {A} (less : A → A → bool) : relation A :=
  fun a b => less b a = false.
Definition descending {A} (less : A → A → bool) : relation A :=
  fun a b => less a b = false.

(** The row the second loop appends for an entry of the map. *)
Definition rowOf (serviceName : string) (entry : string * list string)
    : list string :=
  [Join (sortStrings entry.2) "<br>"; serviceName; entry.1].

(** The fields of a row, by the specification's names. *)
Definition hostsField (row : list string) : string := idx 0 row.
Definition versionKeyOf (row : list string) : string := idx 2 row.

(** ** Reading a hosts field back

    [strings.Split(s, sep)] of Go's library, for a non-empty [sep]: the
    pieces of [s] between the occurrences of [sep], found from the left.
    [skip] counts the characters of an occurrence still to be passed and
    [piece] is the piece read so far. *)
Fixpoint splitFrom (sep : string) (skip : nat) (piece s : string)
    : list string :=
  match s with
  | EmptyString => [piece]
  | String c s' =>
      match skip with
      | S n => splitFrom sep n piece s'
      | O =>
          if String.prefix sep s
          then piece :: splitFrom sep (String.length sep - 1) "" s'
          else splitFrom sep 0 (piece +:+ String c "") s'
      end
  end.

Definition Split (s sep : string) : list string := splitFrom sep 0 "" s.

(** [strings.Contains(s, substr)]. *)
Fixpoint Contains (s substr : string) : bool :=
  String.prefix substr s ||
  match s with
  | EmptyString => false
  | String _ s' => Contains s' substr
  end.

(** ** The program around the aggregation *)

(** A Go result pair [(value, err)]; [None] is the [nil] error, an error
    carries its message. *)
Definition error := option string.

(** One call of the function [filepath.Walk] is given: the path, the name
    and kind in [info], and the error of the visit. *)
Record WalkEntry := {
  we_path : string;
  we_name : string;
  we_isDir : bool;
  we_err : error
}.

(** What the operating system and the libraries answer during one run. *)
Record OS := {
  user_Current : string * error;            (* [usr.HomeDir] *)
  filepath_Abs : string → string * error;
  filepath_Join : string → string → string;
  filepath_Walk : string → list WalkEntry;  (* the visits, in order *)
  os_files : FileSystem;
  template_ParseFS : error;
  os_Create : string → error;
  tmpl_Execute : list (list string) → string * error  (* bytes written *)
}.

(** [strings.HasPrefix] and [strings.HasSuffix]. *)
Definition HasPrefix (s pre : string) : bool := String.prefix pre s.
Definition HasSuffix (s suffix : string) : bool :=
  String.prefix (String.rev suffix) (String.rev s).

(** Lines 69-85. The walk stops at the first visit for which the function
    returns an error. *)
Fixpoint walkFrom (os : OS) (extension : string) (visits : list WalkEntry)
    (files : list string) : list string * error :=
  match visits with
  | [] => (files, None)
  | v :: visits' =>
      match we_err v with
      | Some err => (files, Some err)
      | None =>
          if negb (we_isDir v) && HasSuffix (we_name v) extension then
            match filepath_Abs os (we_path v) with
            | (_, Some err) => (files, Some err)
            | (absPath, None) =>
                walkFrom os extension visits' (files ++ [absPath])
            end
          else walkFrom os extension visits' files
      end
  end.

Definition FilePathWalkDir (os : OS) (dirPath extension : string)
    : list string * error :=
  walkFrom os extension (filepath_Walk os dirPath) [].

(** Lines 88-107. *)
Definition resolveAbsPath (os : OS) (path : string) : string * error :=
  match user_Current os with
  | (_, Some err) => (path, Some err)
  | (dir, None) =>
      let path :=
        if String.eqb path "~" then dir
        else if HasPrefix path "~/" then
          filepath_Join os dir (String.substring 2 (String.length path - 2) path)
        else path in
      match filepath_Abs os path with
      | (path, Some err) => (path, Some err)
      | (path, None) => (path, None)
      end
  end.

(** How a run ends: the exit status of the process, the lines written to
    standard error and to standard output, and the report file the run left
    on disk, with its content, when it created one. *)
Record Outcome := {
  exitStatus : nat;
  stderr : list string;
  stdout : list string;
  report : option (string * string)
}.

(** [log.Fatal]: one line on standard error, then [os.Exit(1)]. *)
Definition log_Fatal (printed : list string) (msg : string) : Outcome :=
  {| exitStatus := 1; stderr := [msg]; stdout := printed; report := None |}.

(** Lines 112-159, with the values of the two flags. *)
Definition main (os : OS) (order : RangeOrder) (serviceName nmapDir : string)
    : Outcome :=
  if String.eqb nmapDir "" then
    log_Fatal [] "Please provide the Nmap directory using the -nmap-dir flag"
  else
    match resolveAbsPath os nmapDir with
    | (_, Some err) => log_Fatal [] ("invalid path: " +:+ err)
    | (absNmapDir, None) =>
    match FilePathWalkDir os absNmapDir ".xml" with
    | (_, Some err) =>
        log_Fatal [] ("Error getting files" +:+ LF +:+ "Error: " +:+ err +:+ LF)
    | (nmapFiles, None) =>
    let '(printed, tableData) :=
      GenerateTableData_io (os_files os) order nmapFiles serviceName in
    match template_ParseFS os with
    | Some err => log_Fatal printed ("Error parsing template: " +:+ err)
    | None =>
    let outputFilename := serviceName +:+ ".html" in
    match os_Create os outputFilename with
    | Some err =>
        {| exitStatus := 0; stderr := [];
           stdout := printed ++ ["Error creating output file: " +:+ err +:+ LF];
           report := None |}
    | None =>
    match tmpl_Execute os tableData with
    | (written, Some err) =>
        {| exitStatus := 0; stderr := [];
           stdout := printed ++ ["Error executing template: " +:+ err +:+ LF];
           report := Some (outputFilename, written) |}
    | (written, None) =>
        {| exitStatus := 0; stderr := [];
           stdout := printed
                     ++ ["HTML table written to " +:+ outputFilename +:+ LF];
           report := Some (outputFilename, written) |}
    end end end end end.

(** ** Concrete inputs *)

Definition mkPort (portid state name product version : string) : PortT :=
  {| Portid := portid; PortState := {| State := state |};
     Service := {| Name := name; Product := product; Version := version |} |}.

Definition mkRun (addrs : list string) (ports : list PortT) : Nmaprun :=
  {| Host := {| Address := (fun a => {| Addr := a |}) <$> addrs;
                Ports := {| Port := ports |} |} |}.

(** A directory holding the listed documents; any other path cannot be
    read. *)
Fixpoint fsOf (docs : list (string * FileResult)) (filePath : string)
    : FileResult :=
  match docs with
  | [] => ReadError ("open " +:+ filePath +:+ ": no such file or directory")
  | (p, r) :: docs' => if String.eqb p filePath then r else fsOf docs' filePath
  end.

(** The scenario of the specification: two open ports and a filtered one,
    one host per document. *)
Definition scenarioFS : FileSystem :=
  fsOf [("a.xml", Parsed (mkRun ["10.0.0.1"]
           [mkPort "1433" "open" "ms-sql-s" "Microsoft SQL Server" "2019"]));
        ("b.xml", Parsed (mkRun ["10.0.0.2"]
           [mkPort "1433" "open" "ms-sql-s" "Microsoft SQL Server" "2019"]));
        ("c.xml", Parsed (mkRun ["10.0.0.3"]
           [mkPort "1433" "filtered" "ms-sql-s" "X" "1"]))].

Definition scenarioObservations : list Observation :=
  [ {| o_host := "10.0.0.1"; o_port := "1433"; o_portState := "open";
       o_serviceName := "ms-sql-s"; o_serviceProduct := "Microsoft SQL Server";
       o_serviceVersion := "2019" |};
    {| o_host := "10.0.0.2"; o_port := "1433"; o_portState := "open";
       o_serviceName := "ms-sql-s"; o_serviceProduct := "Microsoft SQL Server";
       o_serviceVersion := "2019" |};
    {| o_host := "10.0.0.3"; o_port := "1433"; o_portState := "filtered";
       o_serviceName := "ms-sql-s"; o_serviceProduct := "X";
       o_serviceVersion := "1" |} ].

(** Several versions, a name in another letter case, a host without
    address, a document that is not XML and the same port seen twice. *)
Definition mixedFS : FileSystem :=
  fsOf [("h1.xml", Parsed (mkRun ["2.2.2.2"; "AA:BB:CC:DD:EE:FF"]
           [mkPort "80" "open" "http" "nginx" "1.18.0";
            mkPort "8080" "closed" "http" "Apache httpd" "";
            mkPort "443" "filtered" "http" "nginx" "1.18.0";
            mkPort "22" "open" "ssh" "OpenSSH" "8.2"]));
        ("h2.xml", Parsed (mkRun ["1.1.1.1"]
           [mkPort "80" "open" "http" "nginx" "1.18.0";
            mkPort "81" "open" "HTTP" "nginx" "1.18.0";
            mkPort "82" "open" "http" "" ""]));
        ("h1-again.xml", Parsed (mkRun ["2.2.2.2"]
           [mkPort "80" "open" "http" "nginx" "1.18.0"]));
        ("h3.xml", Parsed (mkRun []
           [mkPort "8000" "open" "http" "" "2.4"]));
        ("broken.xml", UnmarshalError "EOF")].

Definition mixedFiles : list string :=
  ["h1.xml"; "h2.xml"; "h1-again.xml"; "h3.xml"; "broken.xml"; "gone.xml"].

(** An address that holds the separator of the hosts field. *)
Definition separatorFS : FileSystem :=
  fsOf [("x.xml", Parsed (mkRun ["b<br>a"] [mkPort "1" "open" "http" "" ""]))].

(** A run whose report cannot be created: the service name points into a
    directory that does not exist. The scan directory holds one document. *)
Definition unwritableOS : OS :=
  {| user_Current := ("/home/op", None);
     filepath_Abs := fun p => (p, None);
     filepath_Join := fun a b => a +:+ "/" +:+ b;
     filepath_Walk := fun root =>
       [ {| we_path := root; we_name := "scans"; we_isDir := true;
            we_err := None |};
         {| we_path := root +:+ "/a.xml"; we_name := "a.xml";
            we_isDir := false; we_err := None |} ];
     os_files := fsOf [("/tmp/scans/a.xml", Parsed (mkRun ["10.0.0.1"]
                  [mkPort "1433" "open" "missing/ms-sql-s"
                     "Microsoft SQL Server" "2019"]))];
     template_ParseFS := None;
     os_Create := fun name =>
       Some ("open " +:+ name +:+ ": no such file or directory");
     tmpl_Execute := fun _ => ("", None) |}.

(** Whether a path gave a document: neither of the two [continue]s of the
    file loop was taken. *)
Definition isParsed (r : FileResult) : bool :=
  match r with
  | Parsed _ => true
  | _ => false
  end.

(** A scan directory with a document, a text file, a directory whose name
    ends in ".xml" and a truncated document inside it. The answers of the
    user lookup, of the visit of the root, of [os.Create] and of the
    template are left open. *)
Definition scansOS (user : string * error) (rootErr create : error)
    (execute : string * error) : OS :=
  {| user_Current := user;
     filepath_Abs := fun p => (p, None);
     filepath_Join := fun a b => a +:+ "/" +:+ b;
     filepath_Walk := fun root =>
       [ {| we_path := root; we_name := "scans"; we_isDir := true;
            we_err := rootErr |};
         {| we_path := root +:+ "/a.xml"; we_name := "a.xml";
            we_isDir := false; we_err := None |};
         {| we_path := root +:+ "/notes.txt"; we_name := "notes.txt";
            we_isDir := false; we_err := None |};
         {| we_path := root +:+ "/old.xml"; we_name := "old.xml";
            we_isDir := true; we_err := None |};
         {| we_path := root +:+ "/old.xml/b.xml"; we_name := "b.xml";
            we_isDir := false; we_err := None |} ];
     os_files :=
       fsOf [("/home/op/scans/a.xml", Parsed (mkRun ["10.0.0.1"]
               [mkPort "1433" "open" "ms-sql-s" "Microsoft SQL Server" "2019"]));
             ("/home/op/scans/old.xml/b.xml",
              UnmarshalError "XML syntax error on line 7: unexpected EOF")];
     template_ParseFS := None;
     os_Create := fun _ => create;
     tmpl_Execute := fun _ => execute |}.

(** ** The order on strings *)

Lemma ltb_false_le (a b : string) : String.ltb a b = false ↔ String.le b a.
Proof.
  unfold String.le, String.ltb, String.leb.
  rewrite (String.compare_antisym b a).
  destruct (String.compare a b); simpl; split; intros; done.
Qed.

Lemma ltb_true_not_le (a b : string) : String.ltb a b = true ↔ ¬ String.le b a.
Proof.
  rewrite <-ltb_false_le. by destruct (String.ltb a b).
Qed.

Lemma ltb_asym (a b : string) : String.ltb a b = true → String.ltb b a = false.
Proof.
  rewrite ltb_true_not_le, ltb_false_le. intros H.
  destruct (total String.le a b); [done|by exfalso].
Qed.

Lemma ltb_negtrans (a b c : string) :
  String.ltb a b = false → String.ltb b c = false → String.ltb a c = false.
Proof. rewrite !ltb_false_le. intros; by etrans. Qed.

(** ** The sorting routine *)

Section InsertionSort.
Context {A : Type} (less : A → A → bool).
Hypothesis less_asym : ∀ a b, less a b = true → less b a = false.
Hypothesis less_negtrans :
  ∀ a b c, less a b = false → less b c = false → less a c = false.

Lemma sink_perm x r : sink less x r ≡ₚ x :: r.
Proof.
  induction r as [|y r IH]; simpl; [done|].
  destruct (less x y); [|done].
  rewrite IH. apply perm_swap.
Qed.

Lemma sink_sorted x r :
  StronglySorted (descending less) r → StronglySorted (descending less) (sink less x r).
Proof.
  induction 1 as [|y r Hr IH Hy]; simpl.
  { repeat constructor. }
  destruct (less x y) eqn:Hxy.
  - constructor; [done|].
    rewrite sink_perm. constructor; [|done].
    by apply less_asym.
  - constructor; [by constructor|].
    constructor; [done|].
    eapply Forall_impl; [exact Hy|].
    intros z Hz. by eapply less_negtrans.
Qed.

Lemma fold_sink_perm l r :
  fold_left (fun rprefix x => sink less x rprefix) l r ≡ₚ l ++ r.
Proof.
  revert r. induction l as [|x l IH]; intros r; simpl; [done|].
  rewrite IH, sink_perm. by rewrite Permutation_middle.
Qed.

Lemma fold_sink_sorted l r :
  StronglySorted (descending less) r →
  StronglySorted (descending less)
    (fold_left (fun rprefix x => sink less x rprefix) l r).
Proof.
  revert r. induction l as [|x l IH]; intros r Hr; simpl; [done|].
  by apply IH, sink_sorted.
Qed.

Lemma rev_sorted l :
  StronglySorted (descending less) l → StronglySorted (ascending less) (rev l).
Proof.
  induction 1 as [|x l Hl IH Hx]; simpl; [constructor|].
  apply StronglySorted_app_2; [|done|repeat constructor].
  intros y z Hy Hz. apply list_elem_of_singleton in Hz as ->.
  apply list_elem_of_In, in_rev, list_elem_of_In in Hy.
  rewrite Forall_forall in Hx. by apply Hx.
Qed.

Lemma insertionSort_perm l : insertionSort less l ≡ₚ l.
Proof.
  unfold insertionSort. rewrite <-Permutation_rev, fold_sink_perm.
  by rewrite app_nil_r.
Qed.

Lemma insertionSort_sorted l : StronglySorted (ascending less) (insertionSort less l).
Proof. apply rev_sorted, fold_sink_sorted. constructor. Qed.
End InsertionSort.

Lemma StronglySorted_impl {A} (R1 R2 : relation A) l :
  (∀ a b, R1 a b → R2 a b) → StronglySorted R1 l → StronglySorted R2 l.
Proof.
  intros HR. induction 1 as [|x l Hl IH Hx]; constructor; [done|].
  eapply Forall_impl; [exact Hx|]. auto.
Qed.

Lemma sortStrings_perm l : sortStrings l ≡ₚ l.
Proof. apply insertionSort_perm. Qed.

Lemma sortStrings_sorted l : StronglySorted String.le (sortStrings l).
Proof.
  eapply StronglySorted_impl;
    [|apply (insertionSort_sorted String.ltb ltb_asym ltb_negtrans)].
  intros a b. unfold ascending. by rewrite ltb_false_le.
Qed.

(** The result of [sort.Strings] depends on the elements only, not on the
    order they come in. *)
Lemma sortStrings_unique l1 l2 : l1 ≡ₚ l2 → sortStrings l1 = sortStrings l2.
Proof.
  intros E. apply (StronglySorted_unique String.le).
  - apply sortStrings_sorted.
  - apply sortStrings_sorted.
  - by rewrite !sortStrings_perm.
Qed.

Lemma lessVersion_asym a b : lessVersion a b = true → lessVersion b a = false.
Proof. apply ltb_asym. Qed.

Lemma lessVersion_negtrans a b c :
  lessVersion a b = false → lessVersion b c = false → lessVersion a c = false.
Proof. apply ltb_negtrans. Qed.

Lemma sortSlice_perm (data : list (list string)) :
  sortSlice lessVersion data ≡ₚ data.
Proof. apply insertionSort_perm. Qed.

Lemma sortSlice_sorted (data : list (list string)) :
  StronglySorted (fun a b => String.le (idx 2 a) (idx 2 b))
    (sortSlice lessVersion data).
Proof.
  eapply StronglySorted_impl;
    [|apply (insertionSort_sorted lessVersion lessVersion_asym
               lessVersion_negtrans)].
  intros a b. unfold ascending, lessVersion. by rewrite ltb_false_le.
Qed.

(** Rows with distinct versions have one arrangement in ascending order of
    the version. *)
Lemma sorted_rows_unique (d1 d2 : list (list string)) :
  NoDup (idx 2 <$> d1) → d1 ≡ₚ d2 →
  StronglySorted (fun a b => String.le (idx 2 a) (idx 2 b)) d1 →
  StronglySorted (fun a b => String.le (idx 2 a) (idx 2 b)) d2 →
  d1 = d2.
Proof.
  intros Hnd E H1 H2.
  apply (StronglySorted_unique_strong
           (fun a b => String.le (idx 2 a) (idx 2 b))); [|done..].
  intros x1 x2 Hx1 Hx2 H12 H21.
  assert (idx 2 x1 = idx 2 x2) as Hk by (by apply (anti_symm String.le)).
  rewrite <-E in Hx2. clear -Hnd Hx1 Hx2 Hk.
  induction d1 as [|y d1 IH]; [by apply elem_of_nil in Hx1|].
  rewrite fmap_cons in Hnd. apply NoDup_cons in Hnd as [Hy Hnd].
  apply elem_of_cons in Hx1 as [->|Hx1], Hx2 as [->|Hx2]; auto.
  - exfalso. apply Hy. rewrite Hk. by apply list_elem_of_fmap_2.
  - exfalso. apply Hy. rewrite <-Hk. by apply list_elem_of_fmap_2.
Qed.

(** With one row per version, the final [sort.Slice] has one possible
    result. *)
Lemma sortSlice_unique (d1 d2 : list (list string)) :
  NoDup (idx 2 <$> d1) → d1 ≡ₚ d2 →
  sortSlice lessVersion d1 = sortSlice lessVersion d2.
Proof.
  intros Hnd E. apply sorted_rows_unique.
  - by rewrite sortSlice_perm.
  - by rewrite !sortSlice_perm.
  - apply sortSlice_sorted.
  - apply sortSlice_sorted.
Qed.

(** X8. The two sorts of [GenerateTableData] do not depend on the strategy
    the library picks: any arrangement that meets the contract of the [sort]
    package is the one [insertionSort] computes. For [sort.Strings]: *)
Lemma sortStrings_contract (x sorted : list string) :
  sorted ≡ₚ x → StronglySorted (ascending String.ltb) sorted →
  sorted = sortStrings x.
Proof.
  intros E Hs. apply (StronglySorted_unique String.le).
  - eapply StronglySorted_impl; [|exact Hs].
    intros a b. unfold ascending. by rewrite ltb_false_le.
  - apply sortStrings_sorted.
  - by rewrite sortStrings_perm.
Qed.

(** X9. And for the final [sort.Slice], which is not stable and need not
    be: rows with distinct versions have one arrangement that meets its
    contract. *)
Lemma sortSlice_contract (data sorted : list (list string)) :
  NoDup (idx 2 <$> data) →
  sorted ≡ₚ data → StronglySorted (ascending lessVersion) sorted →
  sorted = sortSlice lessVersion data.
Proof.
  intros Hnd E Hs. apply sorted_rows_unique.
  - by rewrite E.
  - by rewrite sortSlice_perm.
  - eapply StronglySorted_impl; [|exact Hs].
    intros a b. unfold ascending, lessVersion. by rewrite ltb_false_le.
  - apply sortSlice_sorted.
Qed.

(** ** The two loops, on Observations *)

Lemma portStep_obsStep nmapRun serviceName versionMap port :
  portStep nmapRun serviceName versionMap port
  = obsStep serviceName versionMap (observationOf nmapRun port).
Proof.
  unfold portStep, obsStep, kept, notFiltered, nameMatches, versionKey,
    hostPort, Sprintf_s_s; simpl.
  destruct (String.eqb (State (PortState port)) "filtered"); simpl; [done|].
  by destruct (String.eqb (Name (Service port)) serviceName).
Qed.

Lemma fold_portStep nmapRun serviceName ports versionMap :
  fold_left (portStep nmapRun serviceName) ports versionMap
  = fold_left (obsStep serviceName) (observationOf nmapRun <$> ports) versionMap.
Proof.
  revert versionMap. induction ports as [|p ports IH]; intros vm; simpl; [done|].
  by rewrite IH, portStep_obsStep.
Qed.

Lemma fold_fileStep fs serviceName nmapFiles st :
  (fold_left (fileStep fs serviceName) nmapFiles st).2
  = fold_left (obsStep serviceName) (observations fs nmapFiles) st.2.
Proof.
  revert st. induction nmapFiles as [|f files IH]; intros st; [done|].
  cbn [fold_left]. rewrite IH. unfold observations. cbn [mbind list_bind].
  rewrite fold_left_app. f_equal.
  unfold fileStep, fileObservations.
  destruct (fs f); simpl; try done. apply fold_portStep.
Qed.

Lemma fold_rowStep serviceName entries data :
  fold_left (rowStep serviceName) entries data
  = data ++ (rowOf serviceName <$> entries).
Proof.
  revert data. induction entries as [|[k hosts] entries IH]; intros data; simpl.
  { by rewrite app_nil_r. }
  rewrite IH. unfold rowStep, rowOf at 2. simpl. by rewrite <-app_assoc.
Qed.

Lemma GenerateTableData_unfold fs (order : RangeOrder) nmapFiles serviceName :
  GenerateTableData fs order nmapFiles serviceName
  = sortSlice lessVersion
      (rowOf serviceName
         <$> order (versionMapOf serviceName (observations fs nmapFiles))).
Proof.
  unfold GenerateTableData, GenerateTableData_io. cbn [snd].
  by rewrite fold_rowStep, fold_fileStep.
Qed.

Lemma fold_obsStep_lookup serviceName obs versionMap key :
  fold_left (obsStep serviceName) obs versionMap !! key
  = match versionMap !! key, bucket serviceName key obs with
    | Some hosts, b => Some (hosts ++ b)
    | None, [] => None
    | None, b => Some b
    end.
Proof.
  revert versionMap. induction obs as [|o obs IH]; intros vm.
  { simpl. destruct (vm !! key); by rewrite ?app_nil_r. }
  cbn [fold_left]. rewrite IH. unfold bucket. rewrite (filter_cons _ o).
  unfold obsStep. destruct (kept serviceName o).
  - rewrite decide_True by done. rewrite filter_cons.
    destruct (decide (versionKey o = key)) as [->|Hne].
    + rewrite lookup_insert_eq, fmap_cons.
      destruct (vm !! key); simpl; [by rewrite <-app_assoc|done].
    + by rewrite lookup_insert_ne by done.
  - by rewrite decide_False by done.
Qed.

Lemma versionMapOf_lookup serviceName obs key :
  versionMapOf serviceName obs !! key
  = match bucket serviceName key obs with
    | [] => None
    | b => Some b
    end.
Proof. unfold versionMapOf. by rewrite fold_obsStep_lookup, lookup_empty. Qed.

(** ** The rows *)

Lemma bucket_perm serviceName key obs1 obs2 :
  filter (fun o => kept serviceName o = true) obs1
    ≡ₚ filter (fun o => kept serviceName o = true) obs2 →
  bucket serviceName key obs1 ≡ₚ bucket serviceName key obs2.
Proof. intros E. unfold bucket. by rewrite E. Qed.

Lemma fmap_pointwise {A B} (f g : A → B) (l : list A) :
  (∀ x, f x = g x) → f <$> l = g <$> l.
Proof.
  intros H. induction l as [|x l IH]; [done|].
  rewrite !fmap_cons. by rewrite H, IH.
Qed.

Lemma rows_range_perm serviceName (order : RangeOrder) versionMap :
  rowOf serviceName <$> order versionMap
    ≡ₚ rowOf serviceName <$> map_to_list versionMap.
Proof. by rewrite (range_perm order). Qed.

Lemma rows_NoDup serviceName (order : RangeOrder) versionMap :
  NoDup (idx 2 <$> (rowOf serviceName <$> order versionMap)).
Proof.
  rewrite <-list_fmap_compose.
  rewrite (fmap_pointwise _ fst) by done.
  rewrite (range_perm order). apply NoDup_fst_map_to_list.
Qed.

(** The rows of the table: one for every key with a non-empty bucket. *)
Lemma elem_of_GenerateTableData fs order nmapFiles serviceName row :
  row ∈ GenerateTableData fs order nmapFiles serviceName ↔
  ∃ key, bucket serviceName key (observations fs nmapFiles) ≠ [] ∧
    row = [Join (sortStrings (bucket serviceName key (observations fs nmapFiles)))
             "<br>"; serviceName; key].
Proof.
  rewrite GenerateTableData_unfold, sortSlice_perm, rows_range_perm.
  rewrite list_elem_of_fmap. split.
  - intros [[k hosts] [-> Hin]]. apply elem_of_map_to_list in Hin.
    rewrite versionMapOf_lookup in Hin. exists k.
    destruct (bucket serviceName k _) eqn:Hb; [done|].
    by injection Hin as <-.
  - intros [k [Hne ->]].
    exists (k, bucket serviceName k (observations fs nmapFiles)).
    split; [done|]. apply elem_of_map_to_list. rewrite versionMapOf_lookup.
    by destruct (bucket serviceName k _).
Qed.

Lemma GenerateTableData_NoDup fs order nmapFiles serviceName :
  NoDup (idx 2 <$> GenerateTableData fs order nmapFiles serviceName).
Proof.
  rewrite GenerateTableData_unfold, sortSlice_perm. apply rows_NoDup.
Qed.

(** The table is a function of the kept Observations, as a multiset. *)
Lemma GenerateTableData_kept_perm fs1 fs2 (order1 order2 : RangeOrder)
    nmapFiles1 nmapFiles2 serviceName :
  filter (fun o => kept serviceName o = true) (observations fs1 nmapFiles1)
    ≡ₚ filter (fun o => kept serviceName o = true)
         (observations fs2 nmapFiles2) →
  GenerateTableData fs1 order1 nmapFiles1 serviceName
  = GenerateTableData fs2 order2 nmapFiles2 serviceName.
Proof.
  intros E. rewrite !GenerateTableData_unfold.
  apply sortSlice_unique; [apply rows_NoDup|].
  rewrite !rows_range_perm.
  set (m1 := versionMapOf serviceName (observations fs1 nmapFiles1)).
  set (m2 := versionMapOf serviceName (observations fs2 nmapFiles2)).
  assert (sortStrings <$> m1 = sortStrings <$> m2) as Hm.
  { apply map_eq. intros k. rewrite !lookup_fmap. unfold m1, m2.
    rewrite !versionMapOf_lookup.
    pose proof (bucket_perm serviceName k _ _ E) as Hb.
    destruct (bucket serviceName k (observations fs1 nmapFiles1)) as [|x b1].
    { apply Permutation_nil in Hb. by rewrite Hb. }
    destruct (bucket serviceName k (observations fs2 nmapFiles2)) as [|y b2].
    { by apply Permutation_nil_r in Hb. }
    simpl. f_equal. by apply sortStrings_unique. }
  assert (∀ m : gmap string (list string),
    rowOf serviceName <$> map_to_list m
      ≡ₚ (fun e => [Join e.2 "<br>"; serviceName; e.1])
           <$> map_to_list (sortStrings <$> m)) as Hrows.
  { intros m. rewrite map_to_list_fmap, <-list_fmap_compose.
    by rewrite (fmap_pointwise (_ ∘ _) (rowOf serviceName)) by (by intros []). }
  by rewrite !Hrows, Hm.
Qed.

Lemma kept_true serviceName o :
  kept serviceName o = true ↔
  o_portState o ≠ "filtered" ∧ o_serviceName o = serviceName.
Proof.
  unfold kept, notFiltered, nameMatches.
  rewrite andb_true_iff, negb_true_iff, String.eqb_eq, String.eqb_neq.
  done.
Qed.

Lemma StronglySorted_lookup {A} (R : relation A) l i j x y :
  StronglySorted R l → i < j → l !! i = Some x → l !! j = Some y → R x y.
Proof.
  intros Hl. revert i j. induction Hl as [|z l Hl IH Hz]; intros i j Hij Hi Hj.
  { by rewrite lookup_nil in Hi. }
  destruct j as [|j]; [lia|]. simpl in Hj. destruct i as [|i]; simpl in Hi.
  - injection Hi as ->. rewrite Forall_forall in Hz.
    apply Hz. by eapply list_elem_of_lookup_2.
  - apply (IH i j); [lia|done..].
Qed.

(** ** Where a kept Observation goes *)

Lemma bucket_elem serviceName (obs : list Observation) o :
  o ∈ obs → kept serviceName o = true →
  hostPort o ∈ bucket serviceName (versionKey o) obs.
Proof.
  intros Ho Hk. unfold bucket. apply list_elem_of_fmap_2.
  apply list_elem_of_filter. split; [done|].
  by apply list_elem_of_filter.
Qed.

Lemma bucket_inv serviceName key (obs : list Observation) e :
  e ∈ bucket serviceName key obs →
  ∃ o, o ∈ obs ∧ kept serviceName o = true ∧ versionKey o = key
       ∧ hostPort o = e.
Proof.
  unfold bucket. intros (o & -> & Ho)%list_elem_of_fmap.
  apply list_elem_of_filter in Ho as [Hkey Ho].
  apply list_elem_of_filter in Ho as [Hk Ho]. by exists o.
Qed.

Lemma kept_row fs order nmapFiles serviceName o :
  o ∈ observations fs nmapFiles → kept serviceName o = true →
  [Join (sortStrings (bucket serviceName (versionKey o)
                        (observations fs nmapFiles))) "<br>";
   serviceName; versionKey o]
    ∈ GenerateTableData fs order nmapFiles serviceName.
Proof.
  intros Ho Hk. apply elem_of_GenerateTableData. exists (versionKey o).
  split; [|done]. intros Hb.
  pose proof (bucket_elem serviceName _ o Ho Hk) as Hin.
  rewrite Hb in Hin. by apply elem_of_nil in Hin.
Qed.

Lemma NoDup_fmap_eq {A B} (f : A → B) (l : list A) x y :
  NoDup (f <$> l) → x ∈ l → y ∈ l → f x = f y → x = y.
Proof.
  induction l as [|z l IH]; intros Hnd Hx Hy Hf.
  { by apply elem_of_nil in Hx. }
  rewrite fmap_cons in Hnd. apply NoDup_cons in Hnd as [Hz Hnd].
  apply elem_of_cons in Hx as [->|Hx], Hy as [->|Hy]; auto.
  - exfalso. apply Hz. rewrite Hf. by apply list_elem_of_fmap_2.
  - exfalso. apply Hz. rewrite <-Hf. by apply list_elem_of_fmap_2.
Qed.

(** ** The entries of the map, all together *)

Lemma concat_fmap_bind {A B} (f : A → list B) (l : list A) :
  concat (f <$> l) = l ≫= f.
Proof. induction l as [|x l IH]; [done|]. rewrite fmap_cons. simpl. by rewrite IH. Qed.

Lemma bind_perm_pointwise {A B} (f g : A → list B) (l : list A) :
  (∀ x, x ∈ l → f x ≡ₚ g x) → l ≫= f ≡ₚ l ≫= g.
Proof.
  induction l as [|x l IH]; intros H; [done|].
  rewrite !bind_cons. rewrite (H x) by left. rewrite IH; [done|].
  intros y Hy. apply H. by right.
Qed.

Lemma obsStep_values serviceName (versionMap : gmap string (list string)) o :
  map_to_list (obsStep serviceName versionMap o) ≫= snd
    ≡ₚ (map_to_list versionMap ≫= snd)
       ++ (if kept serviceName o then [hostPort o] else []).
Proof.
  unfold obsStep. destruct (kept serviceName o); [|by rewrite app_nil_r].
  destruct (versionMap !! versionKey o) as [hosts|] eqn:Hl; simpl.
  - rewrite <-(insert_delete_eq versionMap).
    rewrite map_to_list_insert by apply lookup_delete_eq.
    rewrite <-(map_to_list_delete versionMap _ _ Hl).
    rewrite !bind_cons. simpl. rewrite <-!app_assoc.
    apply Permutation_app_head, Permutation_app_comm.
  - rewrite map_to_list_insert by done.
    rewrite bind_cons. simpl. apply (Permutation_app_comm [_]).
Qed.

Lemma fold_obsStep_values serviceName obs
    (versionMap : gmap string (list string)) :
  map_to_list (fold_left (obsStep serviceName) obs versionMap) ≫= snd
    ≡ₚ (map_to_list versionMap ≫= snd)
       ++ (hostPort <$> filter (fun o => kept serviceName o = true) obs).
Proof.
  revert versionMap. induction obs as [|o obs IH]; intros vm; simpl.
  { by rewrite app_nil_r. }
  rewrite IH, obsStep_values, filter_cons, <-app_assoc.
  apply Permutation_app_head.
  destruct (kept serviceName o); [by rewrite decide_True by done|].
  by rewrite decide_False by done.
Qed.

Lemma versionMapOf_values serviceName obs :
  map_to_list (versionMapOf serviceName obs) ≫= snd
    ≡ₚ hostPort <$> filter (fun o => kept serviceName o = true) obs.
Proof.
  unfold versionMapOf. by rewrite fold_obsStep_values, map_to_list_empty.
Qed.

(** ** Splitting a joined field *)

Lemma append_cons c (s t : string) : String c s +:+ t = String c (s +:+ t).
Proof. reflexivity. Qed.

Lemma append_empty_l (s : string) : "" +:+ s = s.
Proof. reflexivity. Qed.

Lemma prefix_cons a b (s1 s2 : string) :
  String.prefix (String a s1) (String b s2)
  = if ascii_dec a b then String.prefix s1 s2 else false.
Proof. reflexivity. Qed.

Lemma prefix_empty_l (s : string) : String.prefix "" s = true.
Proof. by destruct s. Qed.

Lemma prefix_empty_r a (s : string) : String.prefix (String a s) "" = false.
Proof. reflexivity. Qed.

Lemma append_empty_r (s : string) : s +:+ "" = s.
Proof. induction s as [|c s IH]; [done|]. by rewrite append_cons, IH. Qed.

Lemma append_assoc (s1 s2 s3 : string) :
  (s1 +:+ s2) +:+ s3 = s1 +:+ s2 +:+ s3.
Proof. induction s1 as [|c s1 IH]; [done|]. by rewrite !append_cons, IH. Qed.

Lemma splitFrom_cons sep piece c s :
  splitFrom sep 0 piece (String c s)
  = if String.prefix sep (String c s)
    then piece :: splitFrom sep (String.length sep - 1) "" s
    else splitFrom sep 0 (piece +:+ String c "") s.
Proof. done. Qed.

Lemma Contains_cons c s substr :
  Contains (String c s) substr = false →
  String.prefix substr (String c s) = false ∧ Contains s substr = false.
Proof. cbn [Contains]. by intros ?%orb_false_iff. Qed.

(** The separator does not overlap itself: an occurrence that starts inside
    an entry lies inside the entry. *)
Lemma prefix_br_app c e rest :
  String.prefix "<br>" (String c e) = false →
  String.prefix "<br>" (String c e +:+ "<br>" +:+ rest) = false.
Proof.
  destruct e as [|c2 [|c3 [|c4 e]]];
    rewrite ?append_cons, ?append_empty_l, ?append_cons, ?prefix_cons,
      ?prefix_empty_l, ?prefix_empty_r;
    repeat match goal with
           | |- context [ascii_dec ?a ?b] => destruct (ascii_dec a b) as [<-|?]
           | |- context [ascii_dec ?a ?b] => destruct (ascii_dec a b) as [?|?]
           end; done.
Qed.

Lemma splitFrom_entry e piece rest :
  Contains e "<br>" = false →
  splitFrom "<br>" 0 piece (e +:+ "<br>" +:+ rest)
  = (piece +:+ e) :: splitFrom "<br>" 0 "" rest.
Proof.
  revert piece. induction e as [|c e IH]; intros piece He.
  { rewrite append_empty_r, append_empty_l, !append_cons, append_empty_l.
    rewrite splitFrom_cons, !prefix_cons, prefix_empty_l. by cbn. }
  apply Contains_cons in He as [Hp He].
  change (String c e +:+ "<br>" +:+ rest)
    with (String c (e +:+ "<br>" +:+ rest)).
  rewrite splitFrom_cons.
  change (String c (e +:+ "<br>" +:+ rest))
    with (String c e +:+ "<br>" +:+ rest).
  rewrite (prefix_br_app c e rest Hp), (IH _ He).
  by rewrite append_assoc.
Qed.

Lemma splitFrom_last e piece :
  Contains e "<br>" = false → splitFrom "<br>" 0 piece e = [piece +:+ e].
Proof.
  revert piece. induction e as [|c e IH]; intros piece He.
  { by rewrite append_empty_r. }
  apply Contains_cons in He as [Hp He].
  rewrite splitFrom_cons, Hp, (IH _ He). by rewrite append_assoc.
Qed.

Lemma Split_Join (entries : list string) :
  entries ≠ [] →
  (∀ e, e ∈ entries → Contains e "<br>" = false) →
  Split (Join entries "<br>") "<br>" = entries.
Proof.
  unfold Split. induction entries as [|e [|e2 es] IH]; intros Hne Hall.
  - done.
  - simpl. apply splitFrom_last, Hall. left.
  - change (Join (e :: e2 :: es) "<br>")
      with (e +:+ "<br>" +:+ Join (e2 :: es) "<br>").
    rewrite splitFrom_entry by (apply Hall; left).
    rewrite IH; [done|done|]. intros e' He'. apply Hall. by right.
Qed.

(** ** How a run ends *)

(** X16. The setup errors [main] reports with [log.Fatal]: no directory given,
    a path that cannot be resolved, a directory that cannot be walked. One
    message, exit status 1, no report. *)
Lemma main_fatal_setup os order serviceName nmapDir :
  nmapDir = "" ∨ (resolveAbsPath os nmapDir).2 ≠ None ∨
  (FilePathWalkDir os (resolveAbsPath os nmapDir).1 ".xml").2 ≠ None →
  exitStatus (main os order serviceName nmapDir) = 1 ∧
  length (stderr (main os order serviceName nmapDir)) = 1 ∧
  stdout (main os order serviceName nmapDir) = [] ∧
  report (main os order serviceName nmapDir) = None.
Proof.
  intros H. unfold main.
  destruct (String.eqb_spec nmapDir "") as [->|Hne]; [done|].
  destruct H as [H|H]; [done|].
  destruct (resolveAbsPath os nmapDir) as [absNmapDir [err|]]; [done|].
  destruct H as [H|H]; [done|]. simpl in H.
  by destruct (FilePathWalkDir os absNmapDir ".xml") as [nmapFiles [err|]].
Qed.

(** X17. The error of [os.Create] is not one of them: whenever the report
    cannot be created after a successful setup, the run ends with status 0,
    nothing on standard error and no report. *)
Lemma main_create_error os order serviceName nmapDir absNmapDir nmapFiles err :
  nmapDir ≠ "" →
  resolveAbsPath os nmapDir = (absNmapDir, None) →
  FilePathWalkDir os absNmapDir ".xml" = (nmapFiles, None) →
  template_ParseFS os = None →
  os_Create os (serviceName +:+ ".html") = Some err →
  exitStatus (main os order serviceName nmapDir) = 0 ∧
  stderr (main os order serviceName nmapDir) = [] ∧
  report (main os order serviceName nmapDir) = None.
Proof.
  intros Hne Hres Hwalk Htmpl Hcreate. unfold main.
  destruct (String.eqb_spec nmapDir "") as [->|_]; [done|].
  rewrite Hres, Hwalk. unfold GenerateTableData_io.
  by rewrite Htmpl, Hcreate.
Qed.

(** * The claims *)

(** C1. Running the Aggregator on two presentations of one multiset of
    Observations, in any order and split over the files in any way, and
    whatever the enumeration orders of the version map in the two runs, gives
    the same sequence of rows. *)
Theorem C1_input_order_independent fs1 fs2 (order1 order2 : RangeOrder)
    nmapFiles1 nmapFiles2 serviceName :
  observations fs1 nmapFiles1 ≡ₚ observations fs2 nmapFiles2 →
  GenerateTableData fs1 order1 nmapFiles1 serviceName
  = GenerateTableData fs2 order2 nmapFiles2 serviceName.
Proof. intros E. apply GenerateTableData_kept_perm. by rewrite E. Qed.

Lemma C1_witness :
  observations mixedFS mixedFiles
    ≡ₚ observations mixedFS (rev mixedFiles) ∧
  GenerateTableData mixedFS range_map_to_list mixedFiles "http"
  = GenerateTableData mixedFS range_reversed (rev mixedFiles) "http".
Proof.
  assert (observations mixedFS mixedFiles
            ≡ₚ observations mixedFS (rev mixedFiles)) as E.
  { unfold observations. by rewrite <-Permutation_rev. }
  split; [exact E|]. exact (C1_input_order_independent _ _ _ _ _ _ _ E).
Defined.

(** C2. The rows of the table are in ascending order of their version key:
    the key of an earlier row is at most the key of a later one. *)
Theorem C2_rows_sorted_by_versionKey fs order nmapFiles serviceName i j ri rj :
  i < j →
  GenerateTableData fs order nmapFiles serviceName !! i = Some ri →
  GenerateTableData fs order nmapFiles serviceName !! j = Some rj →
  String.leb (versionKeyOf ri) (versionKeyOf rj) = true.
Proof.
  intros Hij Hi Hj. apply Is_true_true.
  rewrite GenerateTableData_unfold in Hi, Hj.
  exact (StronglySorted_lookup _ _ i j ri rj (sortSlice_sorted _) Hij Hi Hj).
Qed.

Lemma C2_witness :
  String.leb
    (versionKeyOf ["2.2.2.2:8080"; "http"; "Apache httpd "])
    (versionKeyOf ["1.1.1.1:80<br>2.2.2.2:80<br>2.2.2.2:80"; "http";
                   "nginx 1.18.0"]) = true.
Proof.
  apply (C2_rows_sorted_by_versionKey mixedFS range_reversed mixedFiles
           "http" 2 3).
  - lia.
  - vm_compute. reflexivity.
  - vm_compute. reflexivity.
Defined.

(** C4. Observations whose port state is "filtered" contribute nothing:
    two inputs that have the same Observations outside the filtered ones
    give the same table, whatever the filtered ones are, also when their
    service name is the requested one. *)
Theorem C4_filtered_never_contributes fs1 fs2 (order1 order2 : RangeOrder)
    nmapFiles1 nmapFiles2 serviceName :
  filter (fun o => o_portState o ≠ "filtered") (observations fs1 nmapFiles1)
    ≡ₚ filter (fun o => o_portState o ≠ "filtered")
         (observations fs2 nmapFiles2) →
  GenerateTableData fs1 order1 nmapFiles1 serviceName
  = GenerateTableData fs2 order2 nmapFiles2 serviceName.
Proof.
  intros E. apply GenerateTableData_kept_perm.
  assert (∀ obs : list Observation,
    filter (fun o => kept serviceName o = true) obs
    = filter (fun o => kept serviceName o = true)
        (filter (fun o => o_portState o ≠ "filtered") obs)) as Hf.
  { intros obs. symmetry. apply list_filter_filter_l.
    intros o Ho. by apply kept_true in Ho as [? _]. }
  rewrite (Hf (observations fs1 nmapFiles1)), (Hf (observations fs2 nmapFiles2)).
  by rewrite E.
Qed.

Lemma C4_witness :
  filter (fun o => o_portState o ≠ "filtered")
    (observations scenarioFS ["a.xml"; "b.xml"; "c.xml"])
  ≡ₚ filter (fun o => o_portState o ≠ "filtered")
       (observations scenarioFS ["a.xml"; "b.xml"]) ∧
  GenerateTableData scenarioFS range_map_to_list ["a.xml"; "b.xml"; "c.xml"]
    "ms-sql-s"
  = GenerateTableData scenarioFS range_map_to_list ["a.xml"; "b.xml"]
      "ms-sql-s".
Proof.
  assert (filter (fun o => o_portState o ≠ "filtered")
            (observations scenarioFS ["a.xml"; "b.xml"; "c.xml"])
          ≡ₚ filter (fun o => o_portState o ≠ "filtered")
               (observations scenarioFS ["a.xml"; "b.xml"])) as E.
  { vm_compute. reflexivity. }
  split; [exact E|]. exact (C4_filtered_never_contributes _ _ _ _ _ _ _ E).
Defined.

(** C8. The service name is matched by exact equality of the two strings:
    two inputs that have the same Observations among those whose service
    name is the requested one give the same table, so an Observation whose
    name differs from it in any way, letter case included, contributes
    nothing. *)
Theorem C8_other_names_never_contribute fs1 fs2 (order1 order2 : RangeOrder)
    nmapFiles1 nmapFiles2 serviceName :
  filter (fun o => o_serviceName o = serviceName) (observations fs1 nmapFiles1)
    ≡ₚ filter (fun o => o_serviceName o = serviceName)
         (observations fs2 nmapFiles2) →
  GenerateTableData fs1 order1 nmapFiles1 serviceName
  = GenerateTableData fs2 order2 nmapFiles2 serviceName.
Proof.
  intros E. apply GenerateTableData_kept_perm.
  assert (∀ obs : list Observation,
    filter (fun o => kept serviceName o = true) obs
    = filter (fun o => kept serviceName o = true)
        (filter (fun o => o_serviceName o = serviceName) obs)) as Hf.
  { intros obs. symmetry. apply list_filter_filter_l.
    intros o Ho. by apply kept_true in Ho as [_ ?]. }
  rewrite (Hf (observations fs1 nmapFiles1)), (Hf (observations fs2 nmapFiles2)).
  by rewrite E.
Qed.

Lemma C8_witness :
  filter (fun o => o_serviceName o = "http") (observations mixedFS ["h2.xml"])
    ≡ₚ filter (fun o => o_serviceName o = "http")
         (observations
            (fsOf [("only-http.xml", Parsed (mkRun ["1.1.1.1"]
                     [mkPort "80" "open" "http" "nginx" "1.18.0";
                      mkPort "82" "open" "http" "" ""]))])
            ["only-http.xml"]) ∧
  GenerateTableData mixedFS range_map_to_list ["h2.xml"] "http"
  = GenerateTableData
      (fsOf [("only-http.xml", Parsed (mkRun ["1.1.1.1"]
               [mkPort "80" "open" "http" "nginx" "1.18.0";
                mkPort "82" "open" "http" "" ""]))])
      range_reversed ["only-http.xml"] "http".
Proof.
  split; [vm_compute; reflexivity|].
  apply C8_other_names_never_contribute. vm_compute. reflexivity.
Defined.

(** C9. On the three Observations of the scenario, however they are
    ordered and spread over the files, the table requested for "ms-sql-s"
    has exactly one row: the two open hosts, in order, under the key
    "Microsoft SQL Server 2019". *)
Theorem C9_scenario fs order nmapFiles :
  observations fs nmapFiles ≡ₚ scenarioObservations →
  GenerateTableData fs order nmapFiles "ms-sql-s"
  = [["10.0.0.1:1433<br>10.0.0.2:1433"; "ms-sql-s";
      "Microsoft SQL Server 2019"]].
Proof.
  intros E.
  rewrite (GenerateTableData_kept_perm fs scenarioFS order range_map_to_list
             nmapFiles ["a.xml"; "b.xml"; "c.xml"]).
  - vm_compute. reflexivity.
  - rewrite E. vm_compute. reflexivity.
Qed.

Lemma C9_witness :
  observations scenarioFS ["c.xml"; "b.xml"; "a.xml"] ≡ₚ scenarioObservations ∧
  GenerateTableData scenarioFS range_reversed ["c.xml"; "b.xml"; "a.xml"]
    "ms-sql-s"
  = [["10.0.0.1:1433<br>10.0.0.2:1433"; "ms-sql-s";
      "Microsoft SQL Server 2019"]].
Proof.
  assert (observations scenarioFS ["c.xml"; "b.xml"; "a.xml"]
            ≡ₚ scenarioObservations) as E.
  { vm_compute. apply (Permutation_rev [_; _; _]). }
  split; [exact E|]. exact (C9_scenario _ _ _ E).
Defined.

(** C5. The grouping key of a kept Observation is its product, one space,
    its version, whatever is empty: the table holds a row under exactly that
    text; the rows have distinct keys; and the row under a key holds the
    entries of exactly the kept Observations whose concatenated text is that
    key. So two kept Observations are in the same row if and only if their
    concatenated texts are equal. *)
Theorem C5_grouping_key fs order nmapFiles serviceName :
  NoDup (versionKeyOf <$> GenerateTableData fs order nmapFiles serviceName) ∧
  (∀ o, o ∈ observations fs nmapFiles → kept serviceName o = true →
     ∃ row, row ∈ GenerateTableData fs order nmapFiles serviceName ∧
       versionKeyOf row = o_serviceProduct o +:+ " " +:+ o_serviceVersion o) ∧
  (∀ row, row ∈ GenerateTableData fs order nmapFiles serviceName →
     ∃ entries, hostsField row = Join entries "<br>" ∧
       entries ≡ₚ
         (fun o => o_host o +:+ ":" +:+ o_port o) <$>
           filter (fun o => o_serviceProduct o +:+ " " +:+ o_serviceVersion o
                            = versionKeyOf row)
             (filter (fun o => kept serviceName o = true)
                (observations fs nmapFiles))) ∧
  (∀ o1 o2 row1 row2,
     row1 ∈ GenerateTableData fs order nmapFiles serviceName →
     row2 ∈ GenerateTableData fs order nmapFiles serviceName →
     versionKeyOf row1 = o_serviceProduct o1 +:+ " " +:+ o_serviceVersion o1 →
     versionKeyOf row2 = o_serviceProduct o2 +:+ " " +:+ o_serviceVersion o2 →
     (row1 = row2 ↔
      o_serviceProduct o1 +:+ " " +:+ o_serviceVersion o1
      = o_serviceProduct o2 +:+ " " +:+ o_serviceVersion o2)).
Proof.
  split; [apply GenerateTableData_NoDup|]. split; [|split].
  - intros o Ho Hk. eexists. split; [by apply kept_row|done].
  - intros row Hrow. apply elem_of_GenerateTableData in Hrow as [k [_ ->]].
    exists (sortStrings (bucket serviceName k (observations fs nmapFiles))).
    split; [done|]. apply sortStrings_perm.
  - intros o1 o2 row1 row2 H1 H2 Hk1 Hk2. split.
    + intros ->. by rewrite <-Hk1, <-Hk2.
    + intros Hk. eapply (NoDup_fmap_eq versionKeyOf);
        [apply GenerateTableData_NoDup|done..|].
      by rewrite Hk1, Hk2.
Qed.

Lemma C5_witness :
  ∃ row, row ∈ GenerateTableData mixedFS range_map_to_list mixedFiles "http" ∧
    versionKeyOf row = " 2.4".
Proof.
  destruct (C5_grouping_key mixedFS range_map_to_list mixedFiles "http")
    as (_ & Hrow & _).
  apply (Hrow {| o_host := ""; o_port := "8000"; o_portState := "open";
                 o_serviceName := "http"; o_serviceProduct := "";
                 o_serviceVersion := "2.4" |}).
  - vm_compute. do 8 right. left.
  - reflexivity.
Defined.

(** C7. Nothing is deduplicated: the entries the hosts fields of the rows
    are joined from are, with their multiplicities, the strings host, colon,
    port of the kept Observations (port state other than "filtered", service
    name equal to the requested one). They are what splitting the fields on
    the separator gives when no such string contains the separator. *)
Theorem C7_no_deduplication fs order nmapFiles serviceName :
  ∃ entries : list (list string),
    hostsField <$> GenerateTableData fs order nmapFiles serviceName
    = (fun es => Join es "<br>") <$> entries ∧
    concat entries
      ≡ₚ (fun o => o_host o +:+ ":" +:+ o_port o) <$>
           filter (fun o => o_portState o ≠ "filtered"
                            ∧ o_serviceName o = serviceName)
             (observations fs nmapFiles) ∧
    ((∀ o, o ∈ observations fs nmapFiles →
        o_portState o ≠ "filtered" → o_serviceName o = serviceName →
        Contains (o_host o +:+ ":" +:+ o_port o) "<br>" = false) →
     (fun row => Split (hostsField row) "<br>")
       <$> GenerateTableData fs order nmapFiles serviceName = entries).
Proof.
  set (obs := observations fs nmapFiles).
  set (g := fun row : list string =>
              sortStrings (bucket serviceName (idx 2 row) obs)).
  exists (g <$> GenerateTableData fs order nmapFiles serviceName).
  split; [|split].
  - rewrite <-list_fmap_compose. apply Forall_fmap_ext_1, Forall_forall.
    intros row Hrow. by apply elem_of_GenerateTableData in Hrow as [k [_ ->]].
  - rewrite concat_fmap_bind.
    rewrite GenerateTableData_unfold, sortSlice_perm, rows_range_perm.
    rewrite list_fmap_bind.
    rewrite (bind_perm_pointwise _ snd).
    + fold obs. rewrite versionMapOf_values.
      by rewrite (list_filter_iff _ _ _ (kept_true serviceName)).
    + intros [k hosts] Hin. apply elem_of_map_to_list in Hin.
      fold obs in Hin. rewrite versionMapOf_lookup in Hin.
      unfold g, rowOf, idx. simpl. rewrite sortStrings_perm.
      destruct (bucket serviceName k obs); [done|]. by injection Hin as <-.
  - intros Hsep. apply Forall_fmap_ext_1, Forall_forall.
    intros row Hrow. apply elem_of_GenerateTableData in Hrow as [k [Hne ->]].
    fold obs in Hne |- *. unfold g, hostsField, idx. simpl.
    apply Split_Join.
    + intros Hnil. apply Hne, Permutation_nil.
      by rewrite <-(sortStrings_perm (bucket serviceName k obs)), Hnil.
    + intros e He. rewrite sortStrings_perm in He.
      apply bucket_inv in He as (o & Ho & [Hstate Hname]%kept_true & _ & <-).
      by apply Hsep.
Qed.

(** C10. A kept Observation of a host without address is not dropped: the
    row of its key has the entry colon, port. *)
Theorem C10_empty_host_entry fs order nmapFiles serviceName filePath nmapRun
    port :
  filePath ∈ nmapFiles →
  fs filePath = Parsed nmapRun →
  Address (Host nmapRun) = [] →
  port ∈ Port (Ports (Host nmapRun)) →
  State (PortState port) ≠ "filtered" →
  Name (Service port) = serviceName →
  ∃ row entries,
    row ∈ GenerateTableData fs order nmapFiles serviceName ∧
    versionKeyOf row
      = Product (Service port) +:+ " " +:+ Version (Service port) ∧
    hostsField row = Join entries "<br>" ∧
    (":" +:+ Portid port) ∈ entries.
Proof.
  intros Hfile Hfs Haddr Hport Hstate Hname.
  set (o := observationOf nmapRun port).
  assert (o ∈ observations fs nmapFiles) as Ho.
  { unfold observations. apply list_elem_of_bind. exists filePath.
    split; [|done]. unfold fileObservations. rewrite Hfs.
    by apply list_elem_of_fmap_2. }
  assert (kept serviceName o = true) as Hk by (by apply kept_true).
  eexists _, _. split; [exact (kept_row fs order nmapFiles serviceName o Ho Hk)|].
  split; [done|]. split; [done|].
  rewrite sortStrings_perm.
  pose proof (bucket_elem serviceName _ o Ho Hk) as Hin.
  unfold hostPort in Hin at 1. unfold o in Hin at 1 2.
  unfold observationOf in Hin at 1 2. simpl in Hin.
  by rewrite Haddr in Hin.
Qed.

Lemma C10_witness :
  ∃ row entries,
    row ∈ GenerateTableData mixedFS range_map_to_list mixedFiles "http" ∧
    versionKeyOf row = "" +:+ " " +:+ "2.4" ∧
    hostsField row = Join entries "<br>" ∧
    (":" +:+ "8000") ∈ entries.
Proof.
  apply (C10_empty_host_entry mixedFS range_map_to_list mixedFiles "http"
           "h3.xml" (mkRun [] [mkPort "8000" "open" "http" "" "2.4"])
           (mkPort "8000" "open" "http" "" "2.4")).
  - do 3 right. left.
  - reflexivity.
  - reflexivity.
  - left.
  - discriminate.
  - reflexivity.
Defined.

(** C3, as the code has it. In every row the hosts field is its entries
    joined by the separator "<br>", and these entries are the bucket of the
    row's key in ascending bytewise order, in whatever order the Observations
    were traversed. Splitting the field on the separator gives these entries
    back whenever none of them contains the separator. *)
Theorem C3_hosts_sorted fs order nmapFiles serviceName row :
  row ∈ GenerateTableData fs order nmapFiles serviceName →
  ∃ entries,
    hostsField row = Join entries "<br>" ∧
    entries ≡ₚ bucket serviceName (versionKeyOf row)
                 (observations fs nmapFiles) ∧
    (∀ i j a b, i < j → entries !! i = Some a → entries !! j = Some b →
       String.leb a b = true) ∧
    ((∀ e, e ∈ entries → Contains e "<br>" = false) →
     Split (hostsField row) "<br>" = entries).
Proof.
  intros Hrow. apply elem_of_GenerateTableData in Hrow as [k [Hne ->]].
  set (b := bucket serviceName k (observations fs nmapFiles)) in *.
  exists (sortStrings b). split; [done|]. split; [apply sortStrings_perm|].
  split.
  - intros i j x y Hij Hi Hj. apply Is_true_true.
    exact (StronglySorted_lookup _ _ i j x y (sortStrings_sorted b) Hij Hi Hj).
  - intros Hall. apply Split_Join; [|done].
    intros Hnil. apply Hne. apply Permutation_nil.
    by rewrite <-(sortStrings_perm b), Hnil.
Qed.

Lemma C3_witness :
  ∃ entries,
    hostsField ["1.1.1.1:80<br>2.2.2.2:80<br>2.2.2.2:80"; "http";
                "nginx 1.18.0"] = Join entries "<br>" ∧
    entries ≡ₚ bucket "http" "nginx 1.18.0" (observations mixedFS mixedFiles) ∧
    (∀ i j a b, i < j → entries !! i = Some a → entries !! j = Some b →
       String.leb a b = true) ∧
    ((∀ e, e ∈ entries → Contains e "<br>" = false) →
     Split (hostsField ["1.1.1.1:80<br>2.2.2.2:80<br>2.2.2.2:80"; "http";
                        "nginx 1.18.0"]) "<br>" = entries).
Proof.
  apply (C3_hosts_sorted mixedFS range_map_to_list mixedFiles "http").
  vm_compute. do 3 right. left.
Defined.

(** C3, as the claim states it, fails: an address that holds the separator
    is cut in two by the split, and the pieces are not in order. *)
Lemma C3_counterexample :
  ¬ (∀ fs order nmapFiles serviceName row,
       row ∈ GenerateTableData fs order nmapFiles serviceName →
       ∀ i j a b, i < j →
         Split (hostsField row) "<br>" !! i = Some a →
         Split (hostsField row) "<br>" !! j = Some b →
         String.leb a b = true).
Proof.
  intros H.
  specialize (H separatorFS range_map_to_list ["x.xml"] "http"
                ["b<br>a:1"; "http"; " "]).
  assert (String.leb "b" "a:1" = true) as Hle.
  { apply (H ltac:(vm_compute; left) 0 1); [lia|done..]. }
  discriminate Hle.
Qed.

(** C6, where the code departs from it. When the report file cannot be
    created, [main] prints the error on standard output and returns: the
    process ends with exit status 0 and nothing on standard error. *)
Theorem C6_unwritable_report_exit_status order :
  main unwritableOS order "missing/ms-sql-s" "/tmp/scans"
  = {| exitStatus := 0;
       stderr := [];
       stdout := ["Error creating output file: "
                  +:+ "open missing/ms-sql-s.html: no such file or directory"
                  +:+ LF];
       report := None |}.
Proof. reflexivity. Qed.

(** * Further properties of the code *)

(** ** The table *)

Lemma Join_nonempty (elems : list string) sep :
  elems ≠ [] → (∀ e, e ∈ elems → e ≠ "") → Join elems sep ≠ "".
Proof.
  destruct elems as [|e [|e2 es]]; intros Hne Hall; [done|..].
  - apply Hall. left.
  - assert (e ≠ "") as He by (apply Hall; left).
    destruct e as [|c e]; [done|].
    change (Join (String c e :: e2 :: es) sep)
      with (String c e +:+ sep +:+ Join (e2 :: es) sep).
    by rewrite append_cons.
Qed.

Lemma hostPort_nonempty o : hostPort o ≠ "".
Proof.
  unfold hostPort. destruct (o_host o) as [|c h]; [|by rewrite append_cons].
  by rewrite append_empty_l, append_cons.
Qed.

(** X1. The table is empty exactly when no Observation is kept; in
    particular for an empty list of files. *)
Theorem GenerateTableData_empty_iff fs order nmapFiles serviceName :
  (GenerateTableData fs order nmapFiles serviceName = [] ↔
   filter (fun o => o_portState o ≠ "filtered" ∧ o_serviceName o = serviceName)
     (observations fs nmapFiles) = []) ∧
  GenerateTableData fs order [] serviceName = [].
Proof.
  assert (∀ files, GenerateTableData fs order files serviceName = [] ↔
    filter (fun o => o_portState o ≠ "filtered" ∧ o_serviceName o = serviceName)
      (observations fs files) = []) as H.
  { intros files.
    rewrite <-(list_filter_iff _ _ _ (kept_true serviceName)). split.
    - intros Hout. apply elem_of_nil_inv. intros o Ho.
      apply list_elem_of_filter in Ho as [Hk Ho].
      pose proof (kept_row fs order files serviceName o Ho Hk) as Hin.
      rewrite Hout in Hin. by apply elem_of_nil in Hin.
    - intros Hobs. apply elem_of_nil_inv. intros row Hrow.
      apply elem_of_GenerateTableData in Hrow as [k [Hne _]]. apply Hne.
      apply elem_of_nil_inv. intros e He.
      apply bucket_inv in He as (o & Ho & Hk & _).
      assert (o ∈ filter (fun o => kept serviceName o = true)
                    (observations fs files)) as Hin
        by (by apply list_elem_of_filter).
      rewrite Hobs in Hin. by apply elem_of_nil in Hin. }
  split; [apply H|]. by apply H.
Qed.

(** X2. Every row has three fields: a hosts field that is not empty, the
    requested service name, and the version. *)
Theorem GenerateTableData_row_shape fs order nmapFiles serviceName row :
  row ∈ GenerateTableData fs order nmapFiles serviceName →
  length row = 3 ∧ idx 1 row = serviceName ∧ hostsField row ≠ "".
Proof.
  intros Hrow. apply elem_of_GenerateTableData in Hrow as [k [Hne ->]].
  split; [done|]. split; [done|].
  unfold hostsField, idx. simpl. apply Join_nonempty.
  - intros Hnil. apply Hne, Permutation_nil.
    by rewrite <-(sortStrings_perm (bucket serviceName k _)), Hnil.
  - intros e He. rewrite sortStrings_perm in He.
    apply bucket_inv in He as (o & _ & _ & _ & <-). apply hostPort_nonempty.
Qed.

Lemma GenerateTableData_row_shape_witness :
  length ["2.2.2.2:8080"; "http"; "Apache httpd "] = 3 ∧
  idx 1 ["2.2.2.2:8080"; "http"; "Apache httpd "] = "http" ∧
  hostsField ["2.2.2.2:8080"; "http"; "Apache httpd "] ≠ "".
Proof.
  apply (GenerateTableData_row_shape mixedFS range_map_to_list mixedFiles "http").
  vm_compute. do 2 right. left.
Defined.

(** X3. The versions of the rows increase strictly: no two rows have the
    same version. *)
Theorem GenerateTableData_strictly_ascending fs order nmapFiles serviceName
    i j ri rj :
  i < j →
  GenerateTableData fs order nmapFiles serviceName !! i = Some ri →
  GenerateTableData fs order nmapFiles serviceName !! j = Some rj →
  String.ltb (versionKeyOf ri) (versionKeyOf rj) = true.
Proof.
  intros Hij Hi Hj. apply ltb_true_not_le. intros Hle.
  assert (String.le (versionKeyOf ri) (versionKeyOf rj)) as Hle'.
  { pose proof Hi as Hi'. pose proof Hj as Hj'.
    rewrite GenerateTableData_unfold in Hi', Hj'.
    exact (StronglySorted_lookup _ _ i j ri rj (sortSlice_sorted _) Hij Hi' Hj'). }
  assert (versionKeyOf ri = versionKeyOf rj) as Heq
    by (by apply (anti_symm String.le)).
  assert (i = j); [|lia].
  apply (NoDup_lookup (idx 2 <$> GenerateTableData fs order nmapFiles serviceName)
           i j (versionKeyOf ri)).
  - apply GenerateTableData_NoDup.
  - by rewrite list_lookup_fmap, Hi.
  - by rewrite list_lookup_fmap, Hj, Heq.
Qed.

Lemma GenerateTableData_strictly_ascending_witness :
  String.ltb (versionKeyOf [":8000"; "http"; " 2.4"])
    (versionKeyOf ["2.2.2.2:8080"; "http"; "Apache httpd "]) = true.
Proof.
  apply (GenerateTableData_strictly_ascending mixedFS range_reversed mixedFiles
           "http" 1 2).
  - lia.
  - vm_compute. reflexivity.
  - vm_compute. reflexivity.
Defined.

(** X4. The version column is the sorted list of the distinct keys of the
    kept Observations: one row for each. *)
Theorem GenerateTableData_versions fs order nmapFiles serviceName :
  versionKeyOf <$> GenerateTableData fs order nmapFiles serviceName
  = sortStrings
      (remove_dups
         ((fun o => o_serviceProduct o +:+ " " +:+ o_serviceVersion o) <$>
            filter (fun o => o_portState o ≠ "filtered"
                             ∧ o_serviceName o = serviceName)
              (observations fs nmapFiles))).
Proof.
  apply (StronglySorted_unique String.le).
  - apply (StronglySorted_fmap _
             (fun a b => String.le (idx 2 a) (idx 2 b))); [done|].
    rewrite GenerateTableData_unfold. apply sortSlice_sorted.
  - apply sortStrings_sorted.
  - rewrite sortStrings_perm. apply NoDup_Permutation.
    + apply GenerateTableData_NoDup.
    + apply NoDup_remove_dups.
    + intros k. rewrite elem_of_remove_dups, !list_elem_of_fmap.
      rewrite <-(list_filter_iff _ _ _ (kept_true serviceName)). split.
      * intros (row & -> & Hrow).
        apply elem_of_GenerateTableData in Hrow as [k [Hne ->]].
        destruct (bucket serviceName k (observations fs nmapFiles))
          as [|e b] eqn:Hb; [done|].
        assert (e ∈ bucket serviceName k (observations fs nmapFiles)) as He
          by (rewrite Hb; left).
        apply bucket_inv in He as (o & Ho & Hk & Hkey & _).
        exists o. split; [done|]. by apply list_elem_of_filter.
      * intros (o & -> & Ho). apply list_elem_of_filter in Ho as [Hk Ho].
        eexists. split; [|exact (kept_row fs order nmapFiles serviceName o Ho Hk)].
        done.
Qed.

Lemma observations_parsed fs nmapFiles :
  observations fs (filter (fun p => isParsed (fs p) = true) nmapFiles)
  = observations fs nmapFiles.
Proof.
  unfold observations. induction nmapFiles as [|f files IH]; [done|].
  rewrite filter_cons, bind_cons.
  destruct (isParsed (fs f)) eqn:Hf.
  - rewrite decide_True by done. by rewrite bind_cons, IH.
  - rewrite decide_False by done. rewrite IH. unfold fileObservations.
    by destruct (fs f).
Qed.

(** X5. A file that cannot be read or parsed is passed over: the table is
    the one of the files that could be. *)
Theorem GenerateTableData_skips_failed_files fs order1 order2 nmapFiles
    serviceName :
  GenerateTableData fs order1 nmapFiles serviceName
  = GenerateTableData fs order2
      (filter (fun p => isParsed (fs p) = true) nmapFiles) serviceName.
Proof. apply GenerateTableData_kept_perm. by rewrite observations_parsed. Qed.

Lemma fold_fileStep_printed_length fs serviceName nmapFiles st :
  length (fold_left (fileStep fs serviceName) nmapFiles st).1
  = length st.1
    + length (filter (fun p => isParsed (fs p) = false) nmapFiles).
Proof.
  revert st. induction nmapFiles as [|f files IH]; intros st.
  { simpl. lia. }
  cbn [fold_left]. rewrite IH, filter_cons. unfold fileStep.
  destruct (fs f); simpl; rewrite ?length_app; simpl; lia.
Qed.

Lemma fold_fileStep_printed_indep fs serviceName1 serviceName2 nmapFiles
    st1 st2 :
  st1.1 = st2.1 →
  (fold_left (fileStep fs serviceName1) nmapFiles st1).1
  = (fold_left (fileStep fs serviceName2) nmapFiles st2).1.
Proof.
  revert st1 st2. induction nmapFiles as [|f files IH]; intros st1 st2 Hst.
  { done. }
  cbn [fold_left]. apply IH. unfold fileStep.
  destruct (fs f); simpl; by rewrite ?Hst.
Qed.

(** X6. The function prints one diagnostic for each file that could not be
    read or parsed, and nothing else; what it prints depends neither on the
    requested service nor on the enumeration order of the map. *)
Theorem GenerateTableData_diagnostics fs order1 order2 nmapFiles
    serviceName1 serviceName2 :
  length (GenerateTableData_io fs order1 nmapFiles serviceName1).1
  = length (filter (fun p => isParsed (fs p) = false) nmapFiles) ∧
  (GenerateTableData_io fs order1 nmapFiles serviceName1).1
  = (GenerateTableData_io fs order2 nmapFiles serviceName2).1.
Proof.
  unfold GenerateTableData_io. cbn [fst]. split.
  - by rewrite fold_fileStep_printed_length.
  - by apply fold_fileStep_printed_indep.
Qed.

(** X7. More files never take a row or an entry away: a row of the table
    of some files has a row of the same version in the table of these files
    and further ones, with at least the same entries. *)
Theorem GenerateTableData_more_files fs order1 order2 nmapFiles1 nmapFiles2
    serviceName row :
  row ∈ GenerateTableData fs order1 nmapFiles1 serviceName →
  ∃ row' entries entries',
    row' ∈ GenerateTableData fs order2 (nmapFiles1 ++ nmapFiles2) serviceName ∧
    versionKeyOf row' = versionKeyOf row ∧
    hostsField row = Join entries "<br>" ∧
    hostsField row' = Join entries' "<br>" ∧
    entries ⊆+ entries'.
Proof.
  intros Hrow. apply elem_of_GenerateTableData in Hrow as [k [Hne ->]].
  set (b1 := bucket serviceName k (observations fs nmapFiles1)) in *.
  set (b2 := bucket serviceName k (observations fs nmapFiles2)).
  assert (bucket serviceName k (observations fs (nmapFiles1 ++ nmapFiles2))
          = b1 ++ b2) as Hb.
  { unfold bucket, observations. by rewrite bind_app, !filter_app, fmap_app. }
  exists [Join (sortStrings (b1 ++ b2)) "<br>"; serviceName; k],
    (sortStrings b1), (sortStrings (b1 ++ b2)).
  split; [|split; [done|split; [done|split; [done|]]]].
  - apply elem_of_GenerateTableData. exists k. rewrite Hb. split; [|done].
    intros Happ. apply Hne. by apply app_eq_nil in Happ as [? _].
  - rewrite !sortStrings_perm. by apply submseteq_inserts_r.
Qed.

Lemma GenerateTableData_more_files_witness :
  ∃ row' entries entries',
    row' ∈ GenerateTableData mixedFS range_reversed
             (["h2.xml"] ++ ["h1.xml"; "h3.xml"]) "http" ∧
    versionKeyOf row' = versionKeyOf ["1.1.1.1:80"; "http"; "nginx 1.18.0"] ∧
    hostsField ["1.1.1.1:80"; "http"; "nginx 1.18.0"] = Join entries "<br>" ∧
    hostsField row' = Join entries' "<br>" ∧
    entries ⊆+ entries'.
Proof.
  apply (GenerateTableData_more_files mixedFS range_map_to_list).
  vm_compute. right. left.
Defined.

Lemma sortStrings_contract_witness :
  ["1.1.1.1:80"; "2.2.2.2:80"] = sortStrings ["2.2.2.2:80"; "1.1.1.1:80"].
Proof.
  apply sortStrings_contract.
  - apply perm_swap.
  - repeat constructor.
Defined.

Lemma sortSlice_contract_witness :
  [["h:1"; "http"; "a 1"]; ["h:2"; "http"; "b 2"]]
  = sortSlice lessVersion [["h:2"; "http"; "b 2"]; ["h:1"; "http"; "a 1"]].
Proof.
  apply sortSlice_contract.
  - apply (bool_decide_unpack _). vm_compute. exact I.
  - apply perm_swap.
  - repeat constructor.
Defined.

(** ** The walk over the scan directory *)

Lemma walkFrom_app os extension visits1 visits2 files :
  walkFrom os extension (visits1 ++ visits2) files
  = match walkFrom os extension visits1 files with
    | (files', None) => walkFrom os extension visits2 files'
    | failed => failed
    end.
Proof.
  revert files. induction visits1 as [|v visits1 IH]; intros files; [done|].
  simpl. destruct (we_err v); [done|].
  destruct (negb (we_isDir v) && HasSuffix (we_name v) extension); [|apply IH].
  destruct (filepath_Abs os (we_path v)) as [absPath [err|]]; [done|apply IH].
Qed.

Lemma walkFrom_success os extension visits files :
  (walkFrom os extension visits files).2 = None →
  (walkFrom os extension visits files).1
  = files ++ ((fun v => (filepath_Abs os (we_path v)).1) <$>
                filter (fun v => we_isDir v = false
                                 ∧ HasSuffix (we_name v) extension = true)
                  visits).
Proof.
  revert files. induction visits as [|v visits IH]; intros files.
  { simpl. by rewrite app_nil_r. }
  simpl. rewrite filter_cons. destruct (we_err v); [done|].
  destruct (we_isDir v); simpl; [apply IH|].
  destruct (HasSuffix (we_name v) extension); simpl; [|apply IH].
  destruct (filepath_Abs os (we_path v)) as [absPath [err|]]; [done|].
  intros H. rewrite (IH _ H). simpl. by rewrite <-app_assoc.
Qed.

Lemma walkFrom_ok_iff os extension visits files :
  (walkFrom os extension visits files).2 = None ↔
  Forall (fun v => we_err v = None ∧
                   (we_isDir v = false → HasSuffix (we_name v) extension = true →
                    (filepath_Abs os (we_path v)).2 = None)) visits.
Proof.
  revert files. induction visits as [|v visits IH]; intros files.
  { simpl. split; [constructor|done]. }
  rewrite Forall_cons. simpl. destruct (we_err v) as [err|].
  { simpl. split; [done|]. by intros [[? _] _]. }
  destruct (we_isDir v); simpl.
  { rewrite IH. split; [|by intros [_ ?]]. intros H. split; [|done]. done. }
  destruct (HasSuffix (we_name v) extension).
  - destruct (filepath_Abs os (we_path v)) as [absPath [err|]]; simpl.
    + split; [done|]. intros [[_ H] _]. by specialize (H eq_refl eq_refl).
    + rewrite IH. split; [|by intros [_ ?]]. intros H. split; [|done]. done.
  - rewrite IH. split; [|by intros [_ ?]]. intros H. split; [|done]. done.
Qed.

(** X10. When the walk succeeds, its result is the absolute paths of the
    visited entries that are not directories and whose name ends with the
    extension, in the order of the visits. *)
Theorem FilePathWalkDir_success os dirPath extension :
  (FilePathWalkDir os dirPath extension).2 = None →
  (FilePathWalkDir os dirPath extension).1
  = (fun v => (filepath_Abs os (we_path v)).1) <$>
      filter (fun v => we_isDir v = false
                       ∧ HasSuffix (we_name v) extension = true)
        (filepath_Walk os dirPath).
Proof. intros H. unfold FilePathWalkDir in *. by rewrite walkFrom_success. Qed.

Lemma FilePathWalkDir_success_witness :
  (FilePathWalkDir (scansOS ("/home/op", None) None None ("", None))
     "/home/op/scans" ".xml").1
  = (fun v => (filepath_Abs (scansOS ("/home/op", None) None None ("", None))
                 (we_path v)).1) <$>
      filter (fun v => we_isDir v = false
                       ∧ HasSuffix (we_name v) ".xml" = true)
        (filepath_Walk (scansOS ("/home/op", None) None None ("", None))
           "/home/op/scans").
Proof. apply FilePathWalkDir_success. reflexivity. Defined.

(** X11. The walk succeeds exactly when no visit carries an error and the
    absolute path of every matching file can be formed. *)
Theorem FilePathWalkDir_ok_iff os dirPath extension :
  (FilePathWalkDir os dirPath extension).2 = None ↔
  Forall (fun v => we_err v = None ∧
                   (we_isDir v = false → HasSuffix (we_name v) extension = true →
                    (filepath_Abs os (we_path v)).2 = None))
    (filepath_Walk os dirPath).
Proof. apply walkFrom_ok_iff. Qed.

(** X12. The walk stops at the first visit that carries an error: it
    returns that error with the files found before it, whatever comes
    after. *)
Theorem FilePathWalkDir_first_error os dirPath extension before v after
    files err :
  filepath_Walk os dirPath = before ++ v :: after →
  walkFrom os extension before [] = (files, None) →
  we_err v = Some err →
  FilePathWalkDir os dirPath extension = (files, Some err).
Proof.
  intros Hwalk Hbefore Herr. unfold FilePathWalkDir.
  rewrite Hwalk, walkFrom_app, Hbefore. simpl. by rewrite Herr.
Qed.

Lemma FilePathWalkDir_first_error_witness :
  FilePathWalkDir
    (scansOS ("/home/op", None)
       (Some "lstat /home/op/scans: no such file or directory") None ("", None))
    "/home/op/scans" ".xml"
  = ([], Some "lstat /home/op/scans: no such file or directory").
Proof.
  eapply (FilePathWalkDir_first_error _ _ _ []); [reflexivity..].
Defined.

(** What [strings.HasPrefix] and [strings.HasSuffix] decide. *)

Lemma prefix_spec (pre s : string) :
  String.prefix pre s = true ↔ ∃ rest, s = pre +:+ rest.
Proof.
  revert s. induction pre as [|a pre IH]; intros s.
  { rewrite prefix_empty_l. split; [|done]. intros _. by exists s. }
  destruct s as [|b s].
  { rewrite prefix_empty_r. split; [done|]. by intros [rest Hrest]. }
  rewrite prefix_cons. destruct (ascii_dec a b) as [->|Hab].
  - rewrite IH. split; intros [rest Hrest]; exists rest.
    + by rewrite append_cons, Hrest.
    + rewrite append_cons in Hrest. by injection Hrest.
  - split; [done|]. intros [rest Hrest]. rewrite append_cons in Hrest.
    by injection Hrest as ->.
Qed.

Lemma rev_app_append (s t : string) :
  String.rev_app s t = String.rev_app s "" +:+ t.
Proof.
  revert t. induction s as [|c s IH]; intros t; [done|].
  cbn [String.rev_app]. rewrite (IH (String c t)), (IH (String c "")).
  by rewrite append_assoc.
Qed.

Lemma rev_cons c (s : string) : String.rev (String c s) = String.rev s +:+ String c "".
Proof. unfold String.rev. cbn [String.rev_app]. apply rev_app_append. Qed.

Lemma rev_append (s t : string) :
  String.rev (s +:+ t) = String.rev t +:+ String.rev s.
Proof.
  induction s as [|c s IH].
  { by rewrite append_empty_l, append_empty_r. }
  by rewrite append_cons, !rev_cons, IH, append_assoc.
Qed.

Lemma rev_involutive (s : string) : String.rev (String.rev s) = s.
Proof.
  induction s as [|c s IH]; [done|].
  by rewrite rev_cons, rev_append, IH.
Qed.

Lemma HasSuffix_spec (s suffix : string) :
  HasSuffix s suffix = true ↔ ∃ pre, s = pre +:+ suffix.
Proof.
  unfold HasSuffix. rewrite prefix_spec. split.
  - intros [rest Hrest]. exists (String.rev rest).
    by rewrite <-(rev_involutive s), Hrest, rev_append, rev_involutive.
  - intros [pre ->]. exists (String.rev pre). apply rev_append.
Qed.

(** X13. After a successful walk, a path is in the result exactly when it is
    the absolute path of a visited entry that is not a directory and whose
    name is some text followed by the extension; a directory is never
    returned, whatever its name. *)
Theorem FilePathWalkDir_files os dirPath extension absPath :
  (FilePathWalkDir os dirPath extension).2 = None →
  (absPath ∈ (FilePathWalkDir os dirPath extension).1 ↔
   ∃ v, v ∈ filepath_Walk os dirPath ∧ we_isDir v = false ∧
        (∃ stem, we_name v = stem +:+ extension) ∧
        (filepath_Abs os (we_path v)).1 = absPath).
Proof.
  intros H. unfold FilePathWalkDir in *. rewrite (walkFrom_success _ _ _ _ H).
  rewrite app_nil_l, list_elem_of_fmap. split.
  - intros (v & -> & Hv). apply list_elem_of_filter in Hv as [[Hd Hs] Hv].
    exists v. by rewrite <-HasSuffix_spec.
  - intros (v & Hv & Hd & Hs & <-). exists v. split; [done|].
    apply list_elem_of_filter. by rewrite HasSuffix_spec.
Qed.

Lemma FilePathWalkDir_files_witness :
  "/home/op/scans/old.xml/b.xml"
    ∈ (FilePathWalkDir (scansOS ("/home/op", None) None None ("", None))
         "/home/op/scans" ".xml").1 ↔
  ∃ v, v ∈ filepath_Walk (scansOS ("/home/op", None) None None ("", None))
             "/home/op/scans" ∧ we_isDir v = false ∧
       (∃ stem, we_name v = stem +:+ ".xml") ∧
       (filepath_Abs (scansOS ("/home/op", None) None None ("", None))
          (we_path v)).1 = "/home/op/scans/old.xml/b.xml".
Proof. apply FilePathWalkDir_files. reflexivity. Defined.

(** ** The scan directory argument *)

Lemma substring_all (s : string) : String.substring 0 (String.length s) s = s.
Proof. induction s as [|c s IH]; [done|]. simpl. by rewrite IH. Qed.

Lemma Abs_result os path :
  match filepath_Abs os path with
  | (p, Some err) => (p, Some err)
  | (p, None) => (p, None)
  end = filepath_Abs os path.
Proof. by destruct (filepath_Abs os path) as [p [err|]]. Qed.

(** X14. With the home directory at hand, "~" stands for it and a leading
    "~/" is replaced by it; any other path, one that starts with "~user"
    too, is made absolute as it is. *)
Theorem resolveAbsPath_home os dir :
  user_Current os = (dir, None) →
  resolveAbsPath os "~" = filepath_Abs os dir ∧
  (∀ rest, resolveAbsPath os ("~/" +:+ rest)
           = filepath_Abs os (filepath_Join os dir rest)) ∧
  (∀ path, path ≠ "~" → HasPrefix path "~/" = false →
           resolveAbsPath os path = filepath_Abs os path).
Proof.
  intros Huser. unfold resolveAbsPath. rewrite Huser. split; [|split].
  - apply Abs_result.
  - intros rest. rewrite !append_cons, append_empty_l.
    cbn [String.eqb Ascii.eqb Bool.eqb]. unfold HasPrefix.
    rewrite !prefix_cons, prefix_empty_l.
    destruct (ascii_dec "~" "~"); [|done]. destruct (ascii_dec "/" "/"); [|done].
    cbn [String.length String.substring Nat.sub].
    rewrite Nat.sub_0_r, substring_all. apply Abs_result.
  - intros path Hne Hpre. rewrite Hpre.
    destruct (String.eqb_spec path "~"); [done|]. apply Abs_result.
Qed.

Lemma resolveAbsPath_home_witness :
  resolveAbsPath (scansOS ("/home/op", None) None None ("", None)) "~"
  = filepath_Abs (scansOS ("/home/op", None) None None ("", None)) "/home/op" ∧
  (∀ rest, resolveAbsPath (scansOS ("/home/op", None) None None ("", None))
             ("~/" +:+ rest)
           = filepath_Abs (scansOS ("/home/op", None) None None ("", None))
               (filepath_Join (scansOS ("/home/op", None) None None ("", None))
                  "/home/op" rest)) ∧
  (∀ path, path ≠ "~" → HasPrefix path "~/" = false →
           resolveAbsPath (scansOS ("/home/op", None) None None ("", None)) path
           = filepath_Abs (scansOS ("/home/op", None) None None ("", None))
               path).
Proof. apply resolveAbsPath_home. reflexivity. Defined.

(** X15. Without a current user no path is resolved, not even an absolute
    one: [resolveAbsPath] gives the path back with the error of the lookup,
    and [main] ends on "invalid path". *)
Theorem resolveAbsPath_no_user os order dir err serviceName path :
  user_Current os = (dir, Some err) →
  resolveAbsPath os path = (path, Some err) ∧
  (path ≠ "" →
   main os order serviceName path = log_Fatal [] ("invalid path: " +:+ err)).
Proof.
  intros Huser.
  assert (resolveAbsPath os path = (path, Some err)) as Hres
    by (unfold resolveAbsPath; by rewrite Huser).
  split; [done|]. intros Hne. unfold main.
  destruct (String.eqb_spec path ""); [done|]. by rewrite Hres.
Qed.

Lemma resolveAbsPath_no_user_witness :
  resolveAbsPath
    (scansOS ("", Some "user: Current requires cgo or $USER set") None None
       ("", None)) "/home/op/scans"
  = ("/home/op/scans", Some "user: Current requires cgo or $USER set") ∧
  ("/home/op/scans" ≠ "" →
   main (scansOS ("", Some "user: Current requires cgo or $USER set") None None
           ("", None)) range_map_to_list "ms-sql-s" "/home/op/scans"
   = log_Fatal []
       ("invalid path: " +:+ "user: Current requires cgo or $USER set")).
Proof. apply (resolveAbsPath_no_user _ _ ""). reflexivity. Defined.

(** ** How a run ends, continued *)

Lemma main_fatal_setup_witness :
  exitStatus (main (scansOS ("/home/op", None)
                      (Some "lstat /home/op/scans: no such file or directory")
                      None ("", None))
                range_map_to_list "ms-sql-s" "~/scans") = 1 ∧
  length (stderr (main (scansOS ("/home/op", None)
                      (Some "lstat /home/op/scans: no such file or directory")
                      None ("", None))
                range_map_to_list "ms-sql-s" "~/scans")) = 1 ∧
  stdout (main (scansOS ("/home/op", None)
                      (Some "lstat /home/op/scans: no such file or directory")
                      None ("", None))
                range_map_to_list "ms-sql-s" "~/scans") = [] ∧
  report (main (scansOS ("/home/op", None)
                      (Some "lstat /home/op/scans: no such file or directory")
                      None ("", None))
                range_map_to_list "ms-sql-s" "~/scans") = None.
Proof. apply main_fatal_setup. right. right. discriminate. Defined.

Lemma main_create_error_witness :
  exitStatus (main unwritableOS range_reversed "missing/ms-sql-s" "/tmp/scans")
  = 0 ∧
  stderr (main unwritableOS range_reversed "missing/ms-sql-s" "/tmp/scans")
  = [] ∧
  report (main unwritableOS range_reversed "missing/ms-sql-s" "/tmp/scans")
  = None.
Proof.
  eapply (main_create_error unwritableOS); [discriminate|reflexivity..].
Defined.

Lemma GenerateTableData_io_order fs (order1 order2 : RangeOrder) nmapFiles
    serviceName :
  GenerateTableData_io fs order1 nmapFiles serviceName
  = GenerateTableData_io fs order2 nmapFiles serviceName.
Proof.
  pose proof (GenerateTableData_kept_perm fs fs order1 order2 nmapFiles
                nmapFiles serviceName (reflexivity _)) as H.
  unfold GenerateTableData in H. unfold GenerateTableData_io in *.
  cbn [fst snd] in H. by rewrite H.
Qed.

(** X18. The order in which Go enumerates the version map has no effect on
    a run: exit status, messages and report are the same. *)
Theorem main_order_independent os (order1 order2 : RangeOrder) serviceName
    nmapDir :
  main os order1 serviceName nmapDir = main os order2 serviceName nmapDir.
Proof.
  unfold main. destruct (String.eqb nmapDir ""); [done|].
  destruct (resolveAbsPath os nmapDir) as [absNmapDir [err|]]; [done|].
  destruct (FilePathWalkDir os absNmapDir ".xml") as [nmapFiles [err|]];
    [done|].
  by rewrite (GenerateTableData_io_order _ order1 order2).
Qed.


(** X20. When every step succeeds, the report is what the template wrote
    for the table of the files the walk found, and the last line printed
    names the report; the lines before it are the diagnostics of the files
    passed over. *)
Theorem main_success os order serviceName nmapDir absNmapDir nmapFiles
    written :
  nmapDir ≠ "" →
  resolveAbsPath os nmapDir = (absNmapDir, None) →
  FilePathWalkDir os absNmapDir ".xml" = (nmapFiles, None) →
  template_ParseFS os = None →
  os_Create os (serviceName +:+ ".html") = None →
  tmpl_Execute os (GenerateTableData (os_files os) order nmapFiles serviceName)
  = (written, None) →
  main os order serviceName nmapDir
  = {| exitStatus := 0;
       stderr := [];
       stdout := (GenerateTableData_io (os_files os) order nmapFiles
                    serviceName).1
                 ++ ["HTML table written to " +:+ (serviceName +:+ ".html")
                     +:+ LF];
       report := Some (serviceName +:+ ".html", written) |}.
Proof.
  intros Hne Hres Hwalk Htmpl Hcreate Hexec. unfold main.
  destruct (String.eqb_spec nmapDir ""); [done|].
  rewrite Hres, Hwalk. unfold GenerateTableData in Hexec.
  destruct (GenerateTableData_io (os_files os) order nmapFiles serviceName)
    as [printed tableData].
  simpl in Hexec. by rewrite Htmpl, Hcreate, Hexec.
Qed.

Lemma main_success_witness :
  main (scansOS ("/home/op", None) None None ("<html>1 row</html>", None))
    range_map_to_list "ms-sql-s" "~/scans"
  = {| exitStatus := 0;
       stderr := [];
       stdout := (GenerateTableData_io
                    (os_files (scansOS ("/home/op", None) None None
                                 ("<html>1 row</html>", None)))
                    range_map_to_list
                    ["/home/op/scans/a.xml"; "/home/op/scans/old.xml/b.xml"]
                    "ms-sql-s").1
                 ++ ["HTML table written to " +:+ ("ms-sql-s" +:+ ".html")
                     +:+ LF];
       report := Some ("ms-sql-s" +:+ ".html", "<html>1 row</html>") |}.
Proof.
  apply (main_success _ _ _ _ "/home/op/scans");
    [discriminate|reflexivity..].
Defined.

(** X21. When the template fails while it writes, the run still ends with
    status 0, and the report file is left with what had been written. *)
Theorem main_execute_error os order serviceName nmapDir absNmapDir nmapFiles
    written err :
  nmapDir ≠ "" →
  resolveAbsPath os nmapDir = (absNmapDir, None) →
  FilePathWalkDir os absNmapDir ".xml" = (nmapFiles, None) →
  template_ParseFS os = None →
  os_Create os (serviceName +:+ ".html") = None →
  tmpl_Execute os (GenerateTableData (os_files os) order nmapFiles serviceName)
  = (written, Some err) →
  exitStatus (main os order serviceName nmapDir) = 0 ∧
  stderr (main os order serviceName nmapDir) = [] ∧
  last (stdout (main os order serviceName nmapDir))
  = Some ("Error executing template: " +:+ err +:+ LF) ∧
  report (main os order serviceName nmapDir)
  = Some (serviceName +:+ ".html", written).
Proof.
  intros Hne Hres Hwalk Htmpl Hcreate Hexec. unfold main.
  destruct (String.eqb_spec nmapDir ""); [done|].
  rewrite Hres, Hwalk. unfold GenerateTableData in Hexec.
  destruct (GenerateTableData_io (os_files os) order nmapFiles serviceName)
    as [printed tableData].
  simpl in Hexec. rewrite Htmpl, Hcreate, Hexec. simpl.
  by rewrite last_snoc.
Qed.

Lemma main_execute_error_witness :
  exitStatus (main (scansOS ("/home/op", None) None None
                      ("<html><table>", Some "write ms-sql-s.html: no space left on device"))
                range_map_to_list "ms-sql-s" "/home/op/scans") = 0 ∧
  stderr (main (scansOS ("/home/op", None) None None
                      ("<html><table>", Some "write ms-sql-s.html: no space left on device"))
                range_map_to_list "ms-sql-s" "/home/op/scans") = [] ∧
  last (stdout (main (scansOS ("/home/op", None) None None
                      ("<html><table>", Some "write ms-sql-s.html: no space left on device"))
                range_map_to_list "ms-sql-s" "/home/op/scans"))
  = Some ("Error executing template: "
          +:+ "write ms-sql-s.html: no space left on device" +:+ LF) ∧
  report (main (scansOS ("/home/op", None) None None
                      ("<html><table>", Some "write ms-sql-s.html: no space left on device"))
                range_map_to_list "ms-sql-s" "/home/op/scans")
  = Some ("ms-sql-s" +:+ ".html", "<html><table>").
Proof.
  eapply (main_execute_error _ _ _ _ "/home/op/scans");
    [discriminate|reflexivity..].
Defined.
